(** * Gaming-lounge reservation backend: availability, pricing, booking lifecycle

    A shallow embedding of [backend/app.py].  The Firestore database is an
    explicit [Store] value that every handler reads and returns; documents
    are records, collections are finite maps from document id to document,
    the two singleton configuration documents are optional maps.  Handlers
    return an [outcome] paired with the store they leave behind. *)

From Stdlib Require Import ZArith String Ascii List SpecFloat.
From stdpp Require Import gmap strings list fin_maps pretty.

Open Scope string_scope.

Set Default Proof Using "Type".

(** ** Stored values

    What a field of a document can hold when it was written from a JSON
    body as it came: null, a truth value, a whole number, a number with a
    fraction (a binary64 float), a text, an array, an object. *)
#[warnings="-register-all"]
Inductive pyval :=
  | PNone
  | PBool (b : bool)
  | PInt (n : Z)
  | PFloat (x : spec_float)
  | PStr (s : string)
  | PList (items : list pyval)
  | PDict (fields : list (string * pyval)).

(** ** Documents and the store *)

(** A document of the [bookings] collection, with the keys that
    [create_booking] writes; [updated_at] is only added by a reschedule.
    Setup, date, time and status are strings, players and duration whole
    numbers, as in every document the handlers write; the price is
    whatever the pricing calculator returned. *)
Record Booking := mkBooking {
  bk_user_id : string;
  bk_name : string;
  bk_email : string;
  bk_phone : string;
  bk_setup : string;
  bk_players : Z;
  bk_date : string;
  bk_time : string;
  bk_duration : Z;
  bk_price : pyval;
  bk_status : string;
  bk_created_at : string;
  bk_updated_at : option string
}.

(** A document of the [users] collection, as written by [user_register]. *)
Record User := mkUser {
  u_email : string;
  u_password : string;
  u_name : string;
  u_phone : string;
  u_created_at : string
}.

(** [db]: the collections [bookings] and [users] keyed by document id, and
    the documents [setup_availability/current] and [pricing/current], which
    may not exist.  The flags of the first are booleans (their Python truth
    value); the rates of the second are stored values of any kind, since
    the pricing route writes its JSON body as it comes. *)
Record Store := mkStore {
  bookings : gmap string Booking;
  users : gmap string User;
  setup_availability : option (gmap string bool);
  pricing : option (gmap string pyval)
}.

Definition set_bookings (st : Store) (bs : gmap string Booking) : Store :=
  {| bookings := bs; users := users st;
     setup_availability := setup_availability st; pricing := pricing st |}.

(** [booking_ref.update({'status': 'cancelled'})] on the document. *)
Definition update_status (b : Booking) (s : string) : Booking :=
  {| bk_user_id := bk_user_id b; bk_name := bk_name b; bk_email := bk_email b;
     bk_phone := bk_phone b; bk_setup := bk_setup b; bk_players := bk_players b;
     bk_date := bk_date b; bk_time := bk_time b; bk_duration := bk_duration b;
     bk_price := bk_price b; bk_status := s; bk_created_at := bk_created_at b;
     bk_updated_at := bk_updated_at b |}.

(** [booking_ref.update({'date':..,'time':..,'status':'rescheduled','updated_at':..})]. *)
Definition update_reschedule (b : Booking) (date time now : string) : Booking :=
  {| bk_user_id := bk_user_id b; bk_name := bk_name b; bk_email := bk_email b;
     bk_phone := bk_phone b; bk_setup := bk_setup b; bk_players := bk_players b;
     bk_date := date; bk_time := time; bk_duration := bk_duration b;
     bk_price := bk_price b; bk_status := "rescheduled";
     bk_created_at := bk_created_at b; bk_updated_at := Some now |}.


(** ** Failures

    One constructor per kind of error response; the HTTP status of each is
    given by [http_status]. *)
Inductive error :=
  | ValidationError (msg : string)
  | InvalidTimeFormat (msg : string)
  | SlotUnavailable
  | InvalidUpdate
  | Forbidden
  | NotFound
  | UnexpectedError.

Definition http_status (e : error) : nat :=
  match e with
  | ValidationError _ | InvalidTimeFormat _ | SlotUnavailable | InvalidUpdate => 400
  | Forbidden => 403
  | NotFound => 404
  | UnexpectedError => 500
  end.

Inductive outcome (A : Type) :=
  | Success (a : A)
  | Failure (e : error).
Arguments Success {A} a.
Arguments Failure {A} e.

(** ** Time-slot catalog *)

(** [f"{hour:02d}"]: decimal, padded with zeros to two characters. *)
Definition fmt_02d (hour : nat) : string :=
  if bool_decide (hour < 10)%nat then "0" ++ pretty hour else pretty hour.

(** [[f"{hour:02d}:00" for hour in range(10, 24)]] *)
Definition all_slots : list string :=
  (λ hour, fmt_02d hour ++ ":00") <$> seq 10 14.

(** ** Availability resolver: [get_available_time_slots] *)

(** [bookings_ref.where('date', '==', date).get()] *)
Definition bookings_where_date (st : Store) (date : string) : list Booking :=
  filter (λ b, bk_date b = date) ((map_to_list (bookings st)).*2).

Definition default_setups : gmap string bool :=
  list_to_map [("ps5_setup_1", true); ("ps5_setup_2", true);
               ("racing_simulator", true); ("pool_table", true)].

(** [setup_data.to_dict() if setup_data.exists else {...}] *)
Definition available_setups (st : Store) : gmap string bool :=
  default default_setups (setup_availability st).

(** [sum(1 for setup, available in available_setups.items() if available)] *)
Definition total_setups (st : Store) : nat :=
  length (filter (λ kv, kv.2 = true) (map_to_list (available_setups st))).

(** The value [{'total': .., 'setups': {..}}] kept for every slot. *)
Record SlotCount := mkSlotCount {
  total : nat;
  setups : gmap string nat
}.

Global Instance SlotCount_inhabited : Inhabited SlotCount :=
  populate {| total := 0; setups := ∅ |}.

(** [{slot: {'total': 0, 'setups': {}} for slot in all_slots}] *)
Definition slot_bookings_init : gmap string SlotCount :=
  list_to_map ((λ slot, (slot, {| total := 0; setups := ∅ |})) <$> all_slots).

(** One iteration of the counting loop over the day's bookings. *)
Definition count_booking (slot_bookings : gmap string SlotCount)
    (booking_data : Booking) : gmap string SlotCount :=
  if bool_decide (bk_status booking_data ∈ ["cancelled"]) then slot_bookings
  else
    let slot := bk_time booking_data in
    let setup := bk_setup booking_data in
    match slot_bookings !! slot with
    | None => slot_bookings
    | Some c =>
        let setups0 :=
          if bool_decide (setup ∈ dom (setups c)) then setups c
          else <[setup := 0]> (setups c) in
        <[slot := {| total := total c + 1;
                     setups := alter (λ n, n + 1) setup setups0 |}]> slot_bookings
    end.

Definition count_bookings (bs : list Booking) : gmap string SlotCount :=
  foldl count_booking slot_bookings_init bs.

(** How one pass through a loop body ends: it runs off its end, or a
    [continue] statement cuts it short.  Either way the [for] statement
    moves on to the next item. *)
Inductive flow := Fallthrough | Continue.

(** A [for] loop whose body threads a state and contains no [break]. *)
Definition for_items {I S : Type} (items : list I)
    (body : I → S → flow * S) (s : S) : S :=
  foldl (λ s item, (body item s).2) s items.

(** The body of the inner loop over [slot_bookings[slot]['setups'].items()]:
    two guarded [continue] statements and nothing else. *)
Definition capacity_body (item : string * nat) (available_slots : list string)
    : flow * list string :=
  let '(setup, count) := item in
  if String.prefix "ps5" setup && bool_decide (2 ≤ count)%nat then
    (Continue, available_slots)
  else if bool_decide (setup ∈ ["racing_simulator"; "pool_table"])
          && bool_decide (1 ≤ count)%nat then
    (Continue, available_slots)
  else (Fallthrough, available_slots).

(** One iteration of the outer loop over [all_slots].  The subscript
    [slot_bookings[slot]] is a total lookup: every canonical slot is a key
    (lemma [count_bookings_is_Some]), so no [KeyError] can arise. *)
Definition check_slot (slot_bookings : gmap string SlotCount) (total_setups : nat)
    (available_slots : list string) (slot : string) : list string :=
  let c := slot_bookings !!! slot in
  if bool_decide (total c < total_setups)%nat then
    let available_slots :=
      for_items (map_to_list (setups c)) capacity_body available_slots in
    available_slots ++ [slot]
  else available_slots.

Definition get_available_time_slots (st : Store) (date : string) : list string :=
  let slot_bookings := count_bookings (bookings_where_date st date) in
  foldl (check_slot slot_bookings (total_setups st)) [] all_slots.

(** The resolver with the inner per-setup loop left out: a slot is kept as
    soon as its total is below the number of enabled setups. *)
Definition check_slot_simplified (slot_bookings : gmap string SlotCount)
    (total_setups : nat) (available_slots : list string) (slot : string)
    : list string :=
  let c := slot_bookings !!! slot in
  if bool_decide (total c < total_setups)%nat then available_slots ++ [slot]
  else available_slots.

Definition get_available_time_slots_simplified (st : Store) (date : string)
    : list string :=
  let slot_bookings := count_bookings (bookings_where_date st date) in
  foldl (check_slot_simplified slot_bookings (total_setups st)) [] all_slots.

(** The number of non-cancelled bookings of [date] whose time is [slot],
    counted directly on the collection. *)
Definition booked (st : Store) (date slot : string) : nat :=
  length (filter (λ b, bk_date b = date ∧ bk_status b ≠ "cancelled" ∧ bk_time b = slot)
            ((map_to_list (bookings st)).*2)).

(** ** Exceptions

    What the helper functions raise; a handler's catch-all turns any of
    them into [UnexpectedError].  [OverflowError] also stands for the
    [MemoryError] of a product that is too large to build. *)
Inductive exn :=
  | KeyError (key : string)
  | ValueError
  | TypeError
  | OverflowError.

Inductive py (A : Type) :=
  | Ret (a : A)
  | Raise (e : exn).
Arguments Ret {A} a.
Arguments Raise {A} e.

Definition py_bind {A B : Type} (m : py A) (k : A → py B) : py B :=
  match m with
  | Ret a => k a
  | Raise e => Raise e
  end.

Notation "x ←py m ; k" := (py_bind m (λ x, k))
  (at level 100, m at next level, right associativity).

(** The failure that the specification calls UnknownSetupType: the
    [KeyError] of [base_prices[setup_type]]. *)
Definition UnknownSetupType (setup_type : string) : exn := KeyError setup_type.

(** ** The interpreter

    What the source leaves to the Python interpreter that runs it and that
    differs between interpreters or cannot be computed from the text of a
    value alone: the number that [int] reads from a text with a character
    outside ASCII (digits and white space of other scripts, by the Unicode
    tables of the interpreter), with [None] for its [ValueError]; the
    greatest number of digits that [int] converts
    ([sys.get_int_max_str_digits()], 0 for no limit); and the products of a
    float, a text or an array with a whole number, where [None] stands for
    the [OverflowError] (or [MemoryError]) of an operand or result that is
    too large. *)
Class Interpreter := {
  int_non_ascii : string → option Z;
  int_max_str_digits : nat;
  float_mul : spec_float → Z → option spec_float;
  str_mul : string → Z → option string;
  list_mul : list pyval → Z → option (list pyval)
}.

Definition or_overflow {A : Type} (r : option A) : py A :=
  match r with
  | Some a => Ret a
  | None => Raise OverflowError
  end.

(** [v * n] for a stored value and a whole number: null and objects have
    no product, a truth value counts as 0 or 1. *)
Definition py_mul {rt : Interpreter} (v : pyval) (n : Z) : py pyval :=
  match v with
  | PNone => Raise TypeError
  | PBool b => Ret (PInt (Z.b2z b * n))
  | PInt a => Ret (PInt (a * n))
  | PFloat x => y ←py or_overflow (float_mul x n); Ret (PFloat y)
  | PStr s => t ←py or_overflow (str_mul s n); Ret (PStr t)
  | PList items => l ←py or_overflow (list_mul items n); Ret (PList l)
  | PDict _ => Raise TypeError
  end.

(** ** The pieces of Python's [str] and [int] that the handlers use *)

Module PyStr.

(** [s.split(sep)[0]]: the text before the first separator. *)
Fixpoint split_first (sep : ascii) (s : string) : string :=
  match s with
  | EmptyString => EmptyString
  | String c s' =>
      if bool_decide (c = sep) then EmptyString
      else String c (split_first sep s')
  end.




Definition digit_of (c : ascii) : option Z :=
  let n := nat_of_ascii c in
  if (48 <=? n)%nat && (n <=? 57)%nat then Some (Z.of_nat (n - 48)) else None.

(** Decimal digits, where single underscores may separate digits. *)
Fixpoint parse_digits (s : string) (acc : Z) (after_digit : bool) : option Z :=
  match s with
  | EmptyString => if after_digit then Some acc else None
  | String c s' =>
      match digit_of c with
      | Some d => parse_digits s' (10 * acc + d)%Z true
      | None =>
          if bool_decide (c = "_"%char) && after_digit
          then parse_digits s' acc false
          else None
      end
  end.

(** The white space that [int] skips around the numeral of an ASCII
    text: tab, line feed, vertical tab, form feed, carriage return and
    space, and not the separators 28 to 31 that [str.strip()] removes. *)
Definition is_int_space (c : ascii) : bool :=
  let n := nat_of_ascii c in
  (n =? 32)%nat || ((9 <=? n)%nat && (n <=? 13)%nat).

Fixpoint lstrip_int (s : string) : string :=
  match s with
  | EmptyString => EmptyString
  | String c s' => if is_int_space c then lstrip_int s' else s
  end.

Definition strip_int (s : string) : string :=
  String.rev (lstrip_int (String.rev (lstrip_int s))).

(** Every character is below 128. *)
Fixpoint is_ascii (s : string) : bool :=
  match s with
  | EmptyString => true
  | String c s' => (nat_of_ascii c <? 128)%nat && is_ascii s'
  end.

Fixpoint count_digits (s : string) : nat :=
  match s with
  | EmptyString => 0
  | String c s' =>
      (match digit_of c with Some _ => 1 | None => 0 end) + count_digits s'
  end.

(** The numeral has more digits than the interpreter converts; no limit
    applies up to 640 digits, nor when the limit is 0. *)
Definition too_many_digits (limit digits : nat) : bool :=
  (640 <? digits)%nat && (0 <? limit)%nat && (limit <? digits)%nat.

(** [int(s)].  For an ASCII text: optional white space around an optional
    sign and a decimal numeral that is not longer than the interpreter's
    limit; for any other text, what the interpreter reads.  [None] stands
    for the [ValueError]. *)
Definition int {rt : Interpreter} (s : string) : option Z :=
  if negb (is_ascii s) then int_non_ascii s
  else
    let text := strip_int s in
    let numeral :=
      match text with
      | String "-"%char r => r
      | String "+"%char r => r
      | r => r
      end in
    if too_many_digits int_max_str_digits (count_digits numeral) then None
    else
      match text with
      | String "-"%char r => Z.opp <$> parse_digits r 0 false
      | String "+"%char r => parse_digits r 0 false
      | r => parse_digits r 0 false
      end.

End PyStr.

(** A scalar of a JSON request body that is handed to [int(..)]: a whole
    number or a string.  Numbers with a fraction, booleans and null are
    left out. *)
Inductive json :=
  | JInt (n : Z)
  | JStr (s : string).

Definition py_int {rt : Interpreter} (v : json) : py Z :=
  match v with
  | JInt n => Ret n
  | JStr s => match PyStr.int s with Some n => Ret n | None => Raise ValueError end
  end.

(** ** Pricing calculator: [calculate_price] *)

Definition default_prices : gmap string pyval :=
  list_to_map [("squad", PInt 400); ("individual", PInt 120);
               ("ps5_specific", PInt 400); ("racing", PInt 150);
               ("pool", PInt 400)].

(** [pricing_data.to_dict() if pricing_data.exists else {...}] *)
Definition base_prices (st : Store) : gmap string pyval :=
  default default_prices (pricing st).

(** [base_prices[setup_type]] *)
Definition base_price (st : Store) (setup_type : string) : py pyval :=
  match base_prices st !! setup_type with
  | Some rate => Ret rate
  | None => Raise (KeyError setup_type)
  end.

(** [base_prices[setup_type] * players * duration] groups from the left. *)
Definition calculate_price {rt : Interpreter} (st : Store)
    (setup_type : string) (duration players : Z) : py pyval :=
  if bool_decide (setup_type = "individual") then
    rate ←py base_price st setup_type;
    per_hour ←py py_mul rate players;
    py_mul per_hour duration
  else
    rate ←py base_price st setup_type; py_mul rate duration.

(** ** Booking lifecycle manager *)

(** The JSON body of [POST /api/bookings]; a key may be missing. *)
Record CreateData := mkCreateData {
  cd_setup : option string;
  cd_players : option json;
  cd_date : option string;
  cd_time : option string;
  cd_duration : option json
}.

(** The JSON body of the two [PUT] routes. *)
Record UpdateData := mkUpdateData {
  ud_status : option string;
  ud_date : option string;
  ud_time : option string
}.

(** The first of ['setup', 'players', 'date', 'time', 'duration'] that is
    not a key of the body. *)
Definition missing_field (data : CreateData) : option string :=
  if bool_decide (cd_setup data = None) then Some "setup"
  else if bool_decide (cd_players data = None) then Some "players"
  else if bool_decide (cd_date data = None) then Some "date"
  else if bool_decide (cd_time data = None) then Some "time"
  else if bool_decide (cd_duration data = None) then Some "duration"
  else None.

(** [create_booking] for the authenticated user [user_id].  [new_id] is the
    identifier that [db.collection('bookings').document()] generates and
    [now] the text of [datetime.now().isoformat()]. *)
Definition create_booking {rt : Interpreter} (st : Store) (user_id : string)
    (data : CreateData)
    (new_id now : string) : outcome (string * Booking) * Store :=
  match missing_field data with
  | Some field =>
      (Failure (ValidationError ("Missing required field: " ++ field)), st)
  | None =>
      match cd_setup data, cd_players data, cd_date data, cd_time data,
            cd_duration data with
      | Some setup, Some players, Some date, Some time, Some duration =>
          let user_data := users st !! user_id in
          let available_slots := get_available_time_slots st date in
          if bool_decide (time ∉ available_slots) then
            (Failure SlotUnavailable, st)
          else
            let booking :=
              d ←py py_int duration;
              p ←py py_int players;
              price ←py calculate_price st setup d p;
              match user_data with
              | None => Raise TypeError
              | Some u =>
                  Ret {| bk_user_id := user_id; bk_name := u_name u;
                         bk_email := u_email u; bk_phone := u_phone u;
                         bk_setup := setup; bk_players := p; bk_date := date;
                         bk_time := time; bk_duration := d; bk_price := price;
                         bk_status := "confirmed"; bk_created_at := now;
                         bk_updated_at := None |}
              end in
            match booking with
            | Raise _ => (Failure UnexpectedError, st)
            | Ret booking_data =>
                (Success (new_id, booking_data),
                 set_bookings st (<[new_id := booking_data]> (bookings st)))
            end
      | _, _, _, _, _ => (Failure UnexpectedError, st)
      end
  end.

(** [booking_ref.get().to_dict()] with the id added, after an update. *)
Definition updated_booking (st : Store) (booking_id : string)
    : outcome (string * Booking) :=
  match bookings st !! booking_id with
  | Some b => Success (booking_id, b)
  | None => Failure UnexpectedError
  end.

(** The cancellation and rescheduling branches, which [update_booking] and
    [update_user_booking] share word for word; the document exists. *)
Definition apply_update {rt : Interpreter} (st : Store) (booking_id : string)
    (data : UpdateData)
    (now : string) : outcome (string * Booking) * Store :=
  if bool_decide (ud_status data = Some "cancelled") then
    let st' := set_bookings st
      (alter (λ b, update_status b "cancelled") booking_id (bookings st)) in
    (updated_booking st' booking_id, st')
  else
    match ud_date data, ud_time data with
    | Some date, Some time =>
        match PyStr.int (PyStr.split_first ":" time) with
        | None => (Failure (InvalidTimeFormat "Invalid time format"), st)
        | Some hour =>
            if bool_decide (hour < 10 ∨ hour > 23)%Z then
              (Failure (InvalidTimeFormat
                 "Invalid time slot. Hours must be between 10 AM and 11 PM"), st)
            else
              let available_slots := get_available_time_slots st date in
              if bool_decide (time ∉ available_slots) then
                (Failure SlotUnavailable, st)
              else
                let st' := set_bookings st
                  (alter (λ b, update_reschedule b date time now) booking_id
                     (bookings st)) in
                (updated_booking st' booking_id, st')
        end
    | _, _ => (Failure InvalidUpdate, st)
    end.

(** [PUT /api/bookings/<booking_id>], behind the admin gate. *)
Definition update_booking {rt : Interpreter} (st : Store) (booking_id : string)
    (data : UpdateData)
    (now : string) : outcome (string * Booking) * Store :=
  match bookings st !! booking_id with
  | None => (Failure NotFound, st)
  | Some booking_data => apply_update st booking_id data now
  end.

(** [PUT /api/user/bookings/<booking_id>] for the authenticated [user_id]. *)
Definition update_user_booking {rt : Interpreter} (st : Store)
    (user_id booking_id : string)
    (data : UpdateData) (now : string) : outcome (string * Booking) * Store :=
  match bookings st !! booking_id with
  | None => (Failure NotFound, st)
  | Some booking_data =>
      if bool_decide (bk_user_id booking_data ≠ user_id) then
        (Failure Forbidden, st)
      else apply_update st booking_id data now
  end.

(** The bodies that stand for the operations of the lifecycle manager. *)
Definition cancel_data : UpdateData :=
  {| ud_status := Some "cancelled"; ud_date := None; ud_time := None |}.

Definition reschedule_data (new_date new_time : string) : UpdateData :=
  {| ud_status := None; ud_date := Some new_date; ud_time := Some new_time |}.

(** Python truth of a query parameter: absent and empty both count as not
    given. *)
Definition given (arg : option string) : bool :=
  match arg with
  | None => false
  | Some s => negb (bool_decide (s = ""))
  end.

(** [GET /api/bookings/check?id=..&email=..], public. *)
Definition check_booking (st : Store) (booking_id email : option string)
    : outcome (string * Booking) :=
  if negb (given booking_id) || negb (given email) then
    Failure (ValidationError "Booking ID and email are required")
  else
    match booking_id, email with
    | Some booking_id, Some email =>
        match bookings st !! booking_id with
        | None => Failure NotFound
        | Some booking_data =>
            if bool_decide (bk_email booking_data ≠ email) then Failure Forbidden
            else Success (booking_id, booking_data)
        end
    | _, _ => Failure UnexpectedError
    end.

(** ** Notions used to state the properties *)

(** The ['total'] that the counting loop holds for [slot]. *)
Definition slot_total (slot_bookings : gmap string SlotCount) (slot : string) : nat :=
  total (slot_bookings !!! slot).

(** What one booking adds to the tally of [slot]. *)
Definition tally_of (b : Booking) (slot : string) : nat :=
  if bool_decide (bk_status b ≠ "cancelled" ∧ bk_time b = slot) then 1 else 0.

(** What a stored booking adds to [booked st date slot]. *)
Definition counts (b : Booking) (date slot : string) : nat :=
  if decide (bk_date b = date ∧ bk_status b ≠ "cancelled" ∧ bk_time b = slot)
  then 1 else 0.

(** The four physical setups of the venue. *)
Definition four_setups : list string :=
  ["ps5_setup_1"; "ps5_setup_2"; "racing_simulator"; "pool_table"].

Definition all_setups_enabled (st : Store) : Prop :=
  Forall (λ setup, available_setups st !! setup = Some true) four_setups.

(** No booking document of [date] has a status other than cancelled. *)
Definition no_active_bookings (st : Store) (date : string) : Prop :=
  map_Forall (λ _ b, bk_date b = date → bk_status b = "cancelled") (bookings st).

(** A store with no documents at all, and one with a user and three
    bookings on one day, used to run the handlers on concrete requests. *)
Definition empty_store : Store :=
  {| bookings := ∅; users := ∅; setup_availability := None; pricing := None |}.

Definition sample_booking (user_id time status : string) : Booking :=
  {| bk_user_id := user_id; bk_name := "Ann"; bk_email := "ann@example.org";
     bk_phone := "555"; bk_setup := "squad"; bk_players := 2;
     bk_date := "2025-06-01"; bk_time := time; bk_duration := 2;
     bk_price := PInt 800; bk_status := status;
     bk_created_at := "2025-05-30T09:00:00";
     bk_updated_at := None |}.

Definition sample_store : Store :=
  {| bookings := list_to_map
       [("b1", sample_booking "u1" "14:00" "confirmed");
        ("b2", sample_booking "u1" "14:00" "cancelled");
        ("b3", sample_booking "u1" "15:00" "rescheduled")];
     users := {[ "u1" := {| u_email := "ann@example.org"; u_password := "5e88";
                            u_name := "Ann"; u_phone := "555";
                            u_created_at := "2025-05-01T08:00:00" |} ]};
     setup_availability := None;
     pricing := None |}.

(** An interpreter to run the handlers on concrete requests: it reads no
    number from a text with a character outside ASCII, has the usual limit
    of 4300 digits, repeats texts and arrays without a bound and multiplies
    floats as binary64 does. *)
Definition sample_interpreter : Interpreter :=
  {| int_non_ascii := λ _, None;
     int_max_str_digits := 4300;
     float_mul := λ x n,
       match binary_normalize 53 1024 n 0 false with
       | S754_infinity _ => None
       | y => Some (SFmul 53 1024 x y)
       end;
     str_mul := λ s n,
       Some (String.concat "" (replicate (Z.to_nat n) s));
     list_mul := λ items n, Some (concat (replicate (Z.to_nat n) items)) |}.

(** The status transitions that the specification lists. *)
Definition spec_transition (old new : string) : Prop :=
  (old = "confirmed" ∧ new = "cancelled")
  ∨ (old = "confirmed" ∧ new = "rescheduled")
  ∨ (old = "rescheduled" ∧ (new = "cancelled" ∨ new = "rescheduled")).

(** The body of a create request that carries the five required fields. *)
Definition create_data (setup : string) (players : json) (date time : string)
    (duration : json) : CreateData :=
  {| cd_setup := Some setup; cd_players := Some players; cd_date := Some date;
     cd_time := Some time; cd_duration := Some duration |}.

(** The message of a reschedule whose hour is outside 10..23. *)
Definition hours_message : string :=
  "Invalid time slot. Hours must be between 10 AM and 11 PM".

(** ** The remaining routes *)

Definition set_pricing (st : Store) (p : option (gmap string pyval)) : Store :=
  {| bookings := bookings st; users := users st;
     setup_availability := setup_availability st; pricing := p |}.

Definition set_setup_availability (st : Store) (s : option (gmap string bool))
    : Store :=
  {| bookings := bookings st; users := users st;
     setup_availability := s; pricing := pricing st |}.

Definition set_users (st : Store) (us : gmap string User) : Store :=
  {| bookings := bookings st; users := us;
     setup_availability := setup_availability st; pricing := pricing st |}.

(** [DELETE /api/bookings/<booking_id>], behind the admin gate. *)
Definition delete_booking (st : Store) (booking_id : string)
    : outcome string * Store :=
  match bookings st !! booking_id with
  | None => (Failure NotFound, st)
  | Some booking =>
      (Success "Booking deleted successfully",
       set_bookings st (delete booking_id (bookings st)))
  end.

(** [DELETE /api/user/bookings/<booking_id>] for the authenticated user. *)
Definition delete_user_booking (st : Store) (user_id booking_id : string)
    : outcome string * Store :=
  match bookings st !! booking_id with
  | None => (Failure NotFound, st)
  | Some booking_data =>
      if bool_decide (bk_user_id booking_data ≠ user_id) then
        (Failure Forbidden, st)
      else
        (Success "Booking deleted successfully",
         set_bookings st (delete booking_id (bookings st)))
  end.

(** [GET /api/bookings?date=..]: the documents with their ids, filtered by
    date when the parameter is given and not empty ([if date:]). *)
Definition get_bookings (st : Store) (date : option string)
    : list (string * Booking) :=
  match date with
  | Some d =>
      if given date then
        filter (λ kb, bk_date kb.2 = d) (map_to_list (bookings st))
      else map_to_list (bookings st)
  | None => map_to_list (bookings st)
  end.

(** [GET /api/user/bookings] for the authenticated user. *)
Definition get_user_bookings (st : Store) (user_id : string)
    : list (string * Booking) :=
  filter (λ kb, bk_user_id kb.2 = user_id) (map_to_list (bookings st)).

(** [GET /api/availability?date=..]: the date, the available slots and the
    setup flags. *)
Definition get_availability (st : Store) (date : option string)
    : outcome (string * list string * gmap string bool) :=
  match date with
  | Some d =>
      if negb (given date) then
        Failure (ValidationError "Date parameter is required")
      else Success (d, get_available_time_slots st d, available_setups st)
  | None => Failure (ValidationError "Date parameter is required")
  end.

(** [GET /api/pricing]: writes the default table when the document does
    not exist. *)
Definition get_pricing (st : Store) : gmap string pyval * Store :=
  match pricing st with
  | None => (default_prices, set_pricing st (Some default_prices))
  | Some p => (p, st)
  end.

(** [PUT /api/pricing].  [pricing_ref.update(data)] overwrites the fields
    of [data] and keeps the others, whatever values they hold; Firestore
    raises when the document does not exist or [data] has no field, which
    the handler's catch-all turns into status 500. *)
Definition update_pricing (st : Store) (data : gmap string pyval)
    : outcome (gmap string pyval) * Store :=
  match pricing st with
  | None => (Failure UnexpectedError, st)
  | Some p =>
      if bool_decide (data = ∅) then (Failure UnexpectedError, st)
      else (Success (data ∪ p), set_pricing st (Some (data ∪ p)))
  end.

(** The store that the pricing route leaves when it is sent the body
    {"squad": null, "pool": "400"} after the default rates were seeded. *)
Definition odd_rates_store : Store :=
  (update_pricing (get_pricing empty_store).2
     (list_to_map [("squad", PNone); ("pool", PStr "400")])).2.

(** [GET /api/setup-availability]: writes the default flags when the
    document does not exist. *)
Definition get_setup_availability (st : Store) : gmap string bool * Store :=
  match setup_availability st with
  | None => (default_setups, set_setup_availability st (Some default_setups))
  | Some s => (s, st)
  end.

(** [PUT /api/setup-availability], with the same [update] as the pricing
    route. *)
Definition update_setup_availability (st : Store) (data : gmap string bool)
    : outcome (gmap string bool) * Store :=
  match setup_availability st with
  | None => (Failure UnexpectedError, st)
  | Some s =>
      if bool_decide (data = ∅) then (Failure UnexpectedError, st)
      else (Success (data ∪ s), set_setup_availability st (Some (data ∪ s)))
  end.

(** ** Accounts *)

(** Failures of the account routes, with their HTTP status. *)
Inductive auth_error :=
  | FieldsRequired (msg : string)
  | UserExists
  | UserNotFound
  | InvalidCredentials.

Definition auth_status (e : auth_error) : nat :=
  match e with
  | FieldsRequired _ | UserExists => 400
  | UserNotFound => 404
  | InvalidCredentials => 401
  end.

(** The claims of a user token and the user part of the response. *)
Record TokenPayload := mkTokenPayload {
  tp_user_id : string;
  tp_email : string;
  tp_name : string;
  tp_exp : Z
}.

Record AuthUser := mkAuthUser {
  au_id : string;
  au_email : string;
  au_name : string
}.

Record RegisterData := mkRegisterData {
  rd_email : option string;
  rd_password : option string;
  rd_name : option string;
  rd_phone : option string
}.

Record LoginData := mkLoginData {
  ld_email : option string;
  ld_password : option string
}.

(** [db.collection('users').where('email', '==', email).get()] *)
Definition users_where_email (st : Store) (email : string)
    : list (string * User) :=
  filter (λ ku, u_email ku.2 = email) (map_to_list (users st)).

(** [timedelta(days=30)] in seconds. *)
Definition thirty_days : Z := 30 * 86400.

(** [POST /api/user/register].  [sha256_hex] stands for
    [hashlib.sha256(s.encode()).hexdigest()] and [jwt_encode] for the
    signing of a payload with the secret; [new_id] is the generated
    document id, [now] the text of [datetime.now().isoformat()] and
    [utcnow] the time of [datetime.utcnow()] in seconds. *)
Definition user_register (sha256_hex : string → string)
    (jwt_encode : TokenPayload → string) (st : Store) (data : RegisterData)
    (new_id now : string) (utcnow : Z)
    : (auth_error + string * AuthUser) * Store :=
  if negb (given (rd_email data) && given (rd_password data)
           && given (rd_name data) && given (rd_phone data)) then
    (inl (FieldsRequired "All fields are required"), st)
  else
    match rd_email data, rd_password data, rd_name data, rd_phone data with
    | Some email, Some password, Some name, Some phone =>
        if bool_decide (0 < length (users_where_email st email))%nat then
          (inl UserExists, st)
        else
          let hashed_password := sha256_hex password in
          let user_data :=
            {| u_email := email; u_password := hashed_password;
               u_name := name; u_phone := phone; u_created_at := now |} in
          let token :=
            jwt_encode {| tp_user_id := new_id; tp_email := email;
                          tp_name := name; tp_exp := utcnow + thirty_days |} in
          (inr (token, {| au_id := new_id; au_email := email; au_name := name |}),
           set_users st (<[new_id := user_data]> (users st)))
    | _, _, _, _ => (inl (FieldsRequired "All fields are required"), st)
    end.

(** [POST /api/user/login]; it reads the store and writes nothing. *)
Definition user_login (sha256_hex : string → string)
    (jwt_encode : TokenPayload → string) (st : Store) (data : LoginData)
    (utcnow : Z) : auth_error + string * AuthUser :=
  match ld_email data, ld_password data with
  | Some email, Some password =>
      if negb (given (ld_email data)) || negb (given (ld_password data)) then
        inl (FieldsRequired "Email and password required")
      else
        match users_where_email st email with
        | [] => inl UserNotFound
        | (user_id, user_data) :: _ =>
            if bool_decide (sha256_hex password ≠ u_password user_data) then
              inl InvalidCredentials
            else
              inr (jwt_encode {| tp_user_id := user_id; tp_email := email;
                                 tp_name := u_name user_data;
                                 tp_exp := utcnow + thirty_days |},
                   {| au_id := user_id; au_email := email;
                      au_name := u_name user_data |})
        end
  | _, _ => inl (FieldsRequired "Email and password required")
  end.

(** ** The access gates *)

Definition drop_chars (n : nat) (s : string) : string :=
  String.substring n (String.length s - n) s.

(** The text before and the text after the first occurrence of [sep]. *)
Fixpoint str_cut (sep s : string) {struct s} : option (string * string) :=
  if String.prefix sep s then Some ("", drop_chars (String.length sep) s)
  else
    match s with
    | EmptyString => None
    | String c s' =>
        match str_cut sep s' with
        | Some (before, after) => Some (String c before, after)
        | None => None
        end
    end.

(** [s.split(sep)[1]]: the text between the first occurrence of [sep] and
    the next one; [None] stands for the exception, the [ValueError] of an
    empty separator or the [IndexError] of a text without the separator. *)
Definition split_item1 (sep s : string) : option string :=
  if bool_decide (sep = "") then None
  else
    match str_cut sep s with
    | None => None
    | Some (_, rest) =>
        Some (match str_cut sep rest with
              | Some (item, _) => item
              | None => rest
              end)
    end.

(** What [jwt.decode] yields for a token: the two exceptions that the
    gates catch, or the claims that the gates read, as Python truth values
    ([admin]) and as the text of [user_id] when there is one. *)
Record Claims := mkClaims {
  cl_admin : bool;
  cl_user_id : option string
}.

Inductive decoded :=
  | ExpiredSignature
  | InvalidToken (msg : string)
  | Decoded (payload : Claims).

(** The response of a gated route: the gate's own refusal with its status
    and message, or whatever the wrapped handler returns. *)
Inductive gated (R : Type) :=
  | Denied (status : nat) (msg : string)
  | Allowed (r : R).
Arguments Denied {R} status msg.
Arguments Allowed {R} r.


(** [user_required(f)]: the handler gets the user id of the token. *)
Definition user_required {R : Type} (jwt_decode : string → decoded)
    (f : string → Store → R * Store) (auth_header : option string)
    (st : Store) : gated R * Store :=
  match auth_header with
  | None => (Denied 401 "Bearer token required", st)
  | Some header =>
      if negb (given auth_header) || negb (String.prefix "Bearer " header) then
        (Denied 401 "Bearer token required", st)
      else
        match split_item1 "Bearer " header with
        | None => (Denied 500 "list index out of range", st)
        | Some token =>
            match jwt_decode token with
            | ExpiredSignature => (Denied 401 "Token has expired", st)
            | InvalidToken _ => (Denied 401 "Invalid token", st)
            | Decoded payload =>
                match cl_user_id payload with
                | Some user_id =>
                    if bool_decide (user_id = "") then
                      (Denied 403 "User authentication required", st)
                    else let '(r, st') := f user_id st in (Allowed r, st')
                | None => (Denied 403 "User authentication required", st)
                end
            end
        end
  end.

(** ** Invariants of the store *)

(** No slot of any date holds more non-cancelled bookings than there are
    enabled setups. *)
Definition no_overbooking (st : Store) : Prop :=
  ∀ date slot, (booked st date slot ≤ total_setups st)%nat.

(** Every stored booking starts at one of the 14 canonical labels. *)
Definition times_canonical (st : Store) : Prop :=
  map_Forall (λ _ b, bk_time b ∈ all_slots) (bookings st).

(** No two user documents carry the same email. *)
Definition emails_unique (st : Store) : Prop :=
  ∀ id1 id2 u1 u2,
    users st !! id1 = Some u1 → users st !! id2 = Some u2 →
    u_email u1 = u_email u2 → id1 = id2.

(** The writes that the booking handlers make to the collection: none, a
    new document whose time the resolver offers for its date, a document
    marked cancelled, a document moved to a date and time that the resolver
    offers, a document removed. *)
Inductive booking_write (st : Store) : Store → Prop :=
  | write_none : booking_write st st
  | write_create new_id b :
      bk_time b ∈ get_available_time_slots st (bk_date b) →
      booking_write st (set_bookings st (<[new_id := b]> (bookings st)))
  | write_cancel id b :
      bookings st !! id = Some b →
      booking_write st
        (set_bookings st (<[id := update_status b "cancelled"]> (bookings st)))
  | write_reschedule id b new_date new_time now :
      bookings st !! id = Some b →
      new_time ∈ get_available_time_slots st new_date →
      booking_write st
        (set_bookings st
           (<[id := update_reschedule b new_date new_time now]> (bookings st)))
  | write_delete id :
      booking_write st (set_bookings st (delete id (bookings st))).

(** The sample store with every setup switched off. *)
Definition closed_store : Store :=
  set_setup_availability sample_store
    (Some (list_to_map [("ps5_setup_1", false); ("ps5_setup_2", false);
                        ("racing_simulator", false); ("pool_table", false)])).

(** The sample store with one setup left switched on. *)
Definition single_setup_store : Store :=
  set_setup_availability sample_store
    (Some (list_to_map [("ps5_setup_1", true); ("ps5_setup_2", false);
                        ("racing_simulator", false); ("pool_table", false)])).

(** A decoder that knows one admin token and one token of user u1, used to
    run the gates on concrete headers. *)
Definition sample_decode (token : string) : decoded :=
  if bool_decide (token = "admin-token") then
    Decoded {| cl_admin := true; cl_user_id := None |}
  else if bool_decide (token = "u1-token") then
    Decoded {| cl_admin := false; cl_user_id := Some "u1" |}
  else InvalidToken "Not enough segments".

(** * Properties *)

(** ** The resolver *)

Section Resolver.

Implicit Types (sb : gmap string SlotCount) (b : Booking) (slot : string).

Lemma filter_iff_elem_of {A} (P Q : A → Prop) `{!∀ x, Decision (P x)}
    `{!∀ x, Decision (Q x)} (l : list A) :
  (∀ x, x ∈ l → P x ↔ Q x) → filter P l = filter Q l.
Proof.
  induction l as [|x l IH]; intros Hl; [done|].
  rewrite !filter_cons, IH.
  - destruct (Hl x) as [H1 H2]; [apply list_elem_of_here|].
    repeat case_decide; tauto.
  - intros y Hy. apply Hl. by apply list_elem_of_further.
Qed.

Lemma capacity_body_state item (acc : list string) :
  (capacity_body item acc).2 = acc.
Proof.
  destruct item as [setup count]. unfold capacity_body.
  repeat case_match; done.
Qed.

Lemma for_items_capacity_body items (acc : list string) :
  for_items items capacity_body acc = acc.
Proof.
  unfold for_items. revert acc.
  induction items as [|item items IH]; intros acc; simpl; [done|].
  rewrite capacity_body_state. apply IH.
Qed.

Lemma check_slot_simplified_eq sb n acc slot :
  check_slot sb n acc slot = check_slot_simplified sb n acc slot.
Proof.
  unfold check_slot, check_slot_simplified.
  case_bool_decide; [|done]. by rewrite for_items_capacity_body.
Qed.

Lemma foldl_check_slot sb n (l acc : list string) :
  foldl (check_slot sb n) acc l = foldl (check_slot_simplified sb n) acc l.
Proof.
  revert acc. induction l as [|slot l IH]; intros acc; simpl; [done|].
  by rewrite check_slot_simplified_eq, IH.
Qed.

Lemma foldl_check_slot_simplified sb n (l acc : list string) :
  foldl (check_slot_simplified sb n) acc l
  = (acc ++ filter (λ slot, slot_total sb slot < n) l)%list.
Proof.
  revert acc. induction l as [|slot l IH]; intros acc; simpl.
  - by rewrite app_nil_r.
  - rewrite IH, filter_cons. unfold check_slot_simplified, slot_total.
    case_bool_decide; case_decide; try lia; [|done].
    by rewrite <- app_assoc.
Qed.

Lemma all_slots_eq :
  all_slots = ["10:00"; "11:00"; "12:00"; "13:00"; "14:00"; "15:00"; "16:00";
               "17:00"; "18:00"; "19:00"; "20:00"; "21:00"; "22:00"; "23:00"].
Proof. reflexivity. Qed.

Lemma slot_bookings_init_lookup slot :
  slot_bookings_init !! slot
  = if decide (slot ∈ all_slots) then Some {| total := 0; setups := ∅ |} else None.
Proof.
  unfold slot_bookings_init.
  assert (Hfst : ((λ s, (s, {| total := 0; setups := ∅ |})) <$> all_slots).*1
                 = all_slots).
  { rewrite <- list_fmap_compose. apply list_fmap_id. }
  case_decide as Hin.
  - apply elem_of_list_to_map_1.
    + rewrite Hfst. apply (bool_decide_unpack _). by vm_compute.
    + apply list_elem_of_fmap. by exists slot.
  - apply not_elem_of_list_to_map_1. by rewrite Hfst.
Qed.

Lemma count_booking_is_Some sb b slot :
  is_Some (count_booking sb b !! slot) ↔ is_Some (sb !! slot).
Proof.
  unfold count_booking. case_bool_decide; [done|].
  destruct (sb !! bk_time b) as [c|] eqn:Hc; [|done].
  destruct (decide (bk_time b = slot)) as [<-|Hne].
  - rewrite lookup_insert_eq, Hc. split; eauto.
  - by rewrite lookup_insert_ne.
Qed.

Lemma slot_total_count_booking sb b slot :
  is_Some (sb !! slot) →
  slot_total (count_booking sb b) slot = slot_total sb slot + tally_of b slot.
Proof.
  intros [c0 Hc0]. unfold count_booking, tally_of, slot_total.
  case_bool_decide as Hst.
  - apply list_elem_of_singleton in Hst.
    rewrite bool_decide_eq_false_2; [lia|]. intros [? _]. done.
  - rewrite list_elem_of_singleton in Hst.
    destruct (decide (bk_time b = slot)) as [<-|Hne].
    + rewrite Hc0, lookup_total_insert_eq. simpl.
      rewrite bool_decide_eq_true_2 by done.
      by rewrite lookup_total_alt, Hc0.
    + rewrite bool_decide_eq_false_2 by (intros [_ ?]; done).
      destruct (sb !! bk_time b); [|lia].
      rewrite lookup_total_insert_ne by done. lia.
Qed.

Lemma slot_total_foldl (bs : list Booking) sb slot :
  is_Some (sb !! slot) →
  slot_total (foldl count_booking sb bs) slot
  = slot_total sb slot
    + length (filter (λ b, bk_status b ≠ "cancelled" ∧ bk_time b = slot) bs).
Proof.
  revert sb. induction bs as [|b bs IH]; intros sb Hsb; simpl.
  - lia.
  - rewrite IH by (by apply count_booking_is_Some).
    rewrite slot_total_count_booking by done.
    rewrite filter_cons. unfold tally_of.
    case_bool_decide; case_decide; try done; simpl; lia.
Qed.

(** After the counting loop the total of a canonical slot is the number
    of non-cancelled bookings of the list that start in it. *)
Lemma slot_total_count_bookings (bs : list Booking) slot :
  slot ∈ all_slots →
  slot_total (count_bookings bs) slot
  = length (filter (λ b, bk_status b ≠ "cancelled" ∧ bk_time b = slot) bs).
Proof.
  intros Hin. unfold count_bookings. rewrite slot_total_foldl.
  - unfold slot_total. rewrite lookup_total_alt, slot_bookings_init_lookup.
    by rewrite decide_True.
  - rewrite slot_bookings_init_lookup, decide_True by done. eauto.
Qed.


Lemma booked_where_date st date slot :
  booked st date slot
  = length (filter (λ b, bk_status b ≠ "cancelled" ∧ bk_time b = slot)
              (bookings_where_date st date)).
Proof.
  unfold booked, bookings_where_date. rewrite list_filter_filter.
  f_equal. apply list_filter_iff. intros b. tauto.
Qed.

(** The resolver keeps exactly the canonical slots whose number of
    non-cancelled bookings is below the number of enabled setups. *)
Lemma get_available_time_slots_filter st date :
  get_available_time_slots st date
  = filter (λ slot, booked st date slot < total_setups st) all_slots.
Proof.
  unfold get_available_time_slots.
  rewrite foldl_check_slot, foldl_check_slot_simplified. simpl.
  apply filter_iff_elem_of. intros slot Hin.
  by rewrite slot_total_count_bookings, booked_where_date.
Qed.

End Resolver.

(** ** Stores that differ in one booking document *)

Section Collection.

Implicit Types (st : Store) (b : Booking) (id date slot : string).

Lemma booked_insert_fresh st id b date slot :
  bookings st !! id = None →
  booked (set_bookings st (<[id := b]> (bookings st))) date slot
  = booked st date slot + counts b date slot.
Proof.
  intros Hfresh. unfold booked, counts. simpl.
  rewrite map_to_list_insert by done.
  rewrite fmap_cons, filter_cons. simpl.
  case_decide; simpl; lia.
Qed.

Lemma booked_insert st id b date slot :
  booked (set_bookings st (<[id := b]> (bookings st))) date slot
  = booked (set_bookings st (delete id (bookings st))) date slot
    + counts b date slot.
Proof.
  rewrite <- insert_delete_eq.
  by rewrite <- (booked_insert_fresh
                  (set_bookings st (delete id (bookings st))) id)
    by apply lookup_delete_eq.
Qed.

Lemma booked_lookup st id b date slot :
  bookings st !! id = Some b →
  booked st date slot
  = booked (set_bookings st (delete id (bookings st))) date slot
    + counts b date slot.
Proof.
  intros Hb. rewrite <- booked_insert.
  rewrite insert_id by done. by destruct st.
Qed.

Lemma total_setups_set_bookings st bs :
  total_setups (set_bookings st bs) = total_setups st.
Proof. done. Qed.

Lemma total_setups_pos st setup :
  available_setups st !! setup = Some true → 0 < total_setups st.
Proof.
  intros Hs. unfold total_setups.
  apply elem_of_map_to_list in Hs.
  assert (Hin : (setup, true) ∈ filter (λ kv : string * bool, kv.2 = true)
                  (map_to_list (available_setups st))).
  { apply list_elem_of_filter. split; [done|]. done. }
  destruct (filter _ _); [by apply elem_of_nil in Hin|]. simpl. lia.
Qed.

Lemma booked_no_active st date slot :
  no_active_bookings st date → booked st date slot = 0.
Proof.
  intros Hno. unfold booked.
  destruct (filter _ _) as [|b l] eqn:Hf; [done|]. exfalso.
  assert (Hb : b ∈ b :: l) by apply list_elem_of_here.
  rewrite <- Hf in Hb. apply list_elem_of_filter in Hb as [(Hd & Hs & _) Hb].
  apply list_elem_of_fmap in Hb as ([id b'] & -> & Hb).
  apply elem_of_map_to_list in Hb. apply Hs. by apply (Hno id).
Qed.

End Collection.

(** ** Claims about the availability resolver *)

(** C2.  The resolver returns, for every date and every store, the same
    list as the resolver without the inner per-setup loop: that loop hands
    back the list of available slots it was given, whatever the counts of
    the ps5, racing_simulator and pool_table setups are. *)
Theorem capacity_loop_has_no_effect (st : Store) (date : string) :
  get_available_time_slots st date = get_available_time_slots_simplified st date
  ∧ ∀ (items : list (string * nat)) (available_slots : list string),
      for_items items capacity_body available_slots = available_slots.
Proof.
  split.
  - unfold get_available_time_slots, get_available_time_slots_simplified.
    apply foldl_check_slot.
  - apply for_items_capacity_body.
Qed.

(** C3.  A canonical slot is in the resolver's result exactly when the
    number of non-cancelled bookings of the date in that slot is strictly
    below the number of enabled setups; when the two are equal the slot is
    left out.  The counting loop skips a cancelled booking, and the total
    it reaches is that number. *)
Theorem available_iff_below_total_setups (st : Store) (date slot : string) :
  slot ∈ all_slots →
  (slot ∈ get_available_time_slots st date
   ↔ booked st date slot < total_setups st)
  ∧ (booked st date slot = total_setups st
     → slot ∉ get_available_time_slots st date)
  ∧ (∀ slot_bookings b,
       bk_status b = "cancelled" → count_booking slot_bookings b = slot_bookings)
  ∧ slot_total (count_bookings (bookings_where_date st date)) slot
    = booked st date slot.
Proof.
  intros Hin. rewrite get_available_time_slots_filter.
  repeat split.
  - by intros [? _]%list_elem_of_filter.
  - intros Hlt. by apply list_elem_of_filter.
  - intros Heq [Hlt _]%list_elem_of_filter. lia.
  - intros sb b Hst. unfold count_booking.
    rewrite bool_decide_eq_true_2; [done|]. rewrite Hst. apply list_elem_of_here.
  - by rewrite slot_total_count_bookings, booked_where_date.
Qed.

Lemma available_iff_below_total_setups_witness :
  "14:00" ∈ get_available_time_slots sample_store "2025-06-01"
  ↔ booked sample_store "2025-06-01" "14:00" < total_setups sample_store.
Proof.
  apply (available_iff_below_total_setups sample_store "2025-06-01" "14:00").
  apply (bool_decide_unpack _). vm_compute. exact I.
Defined.

(** C8.  The resolver's result is a subsequence of the 14 canonical labels
    10:00, 11:00, ..., 23:00, whose hours read 10, 11, ..., 23 in this
    order; when the four setups are enabled and the date has no
    non-cancelled booking, the result is the whole list. *)
Theorem resolve_sublist_of_all_slots {rt : Interpreter} (st : Store)
    (date : string) :
  get_available_time_slots st date `sublist_of` all_slots
  ∧ all_slots = ["10:00"; "11:00"; "12:00"; "13:00"; "14:00"; "15:00"; "16:00";
                 "17:00"; "18:00"; "19:00"; "20:00"; "21:00"; "22:00"; "23:00"]
  ∧ (λ slot, PyStr.int (PyStr.split_first ":" slot)) <$> all_slots
    = (λ hour, Some (Z.of_nat hour)) <$> seq 10 14
  ∧ (all_setups_enabled st → no_active_bookings st date →
     get_available_time_slots st date = all_slots).
Proof.
  rewrite get_available_time_slots_filter. split; [apply sublist_filter|].
  split; [apply all_slots_eq|]. split; [by vm_compute|].
  intros Hen Hno.
  assert (Hpos : 0 < total_setups st).
  { apply (total_setups_pos st "ps5_setup_1").
    by apply Forall_cons_1 in Hen as [? _]. }
  generalize all_slots. intros l.
  induction l as [|slot l IH]; [done|].
  rewrite filter_cons, IH, booked_no_active by done.
  by rewrite decide_True.
Qed.

Lemma resolve_sublist_of_all_slots_witness :
  get_available_time_slots empty_store "2025-06-01" = all_slots.
Proof.
  apply (resolve_sublist_of_all_slots (rt := sample_interpreter) empty_store
           "2025-06-01").
  - apply (bool_decide_unpack _). vm_compute. exact I.
  - apply map_Forall_empty.
Defined.



(** ** Claims about the pricing calculator *)

(** C4.  For a setup type of the rate table, the price of "individual" is
    rate * players * duration and the price of any other type is
    rate * duration, whatever the player count: as whole numbers when the
    rate is a whole number, and as the products that Python forms, grouped
    from the left, when the rate is any other stored value; with the
    default rates, price("individual", 2, 3) = 720 and
    price("squad", 2, p) = 800. *)
Theorem calculate_price_formula {rt : Interpreter} (st : Store)
    (setup_type : string) (duration players : Z) :
  (∀ rate : Z, base_prices st !! setup_type = Some (PInt rate) →
     calculate_price st setup_type duration players
     = Ret (PInt (if bool_decide (setup_type = "individual")
                  then rate * players * duration else rate * duration)%Z))
  ∧ (∀ rate : pyval, base_prices st !! setup_type = Some rate →
     calculate_price st setup_type duration players
     = if bool_decide (setup_type = "individual")
       then per_hour ←py py_mul rate players; py_mul per_hour duration
       else py_mul rate duration)
  ∧ (base_prices st = default_prices →
     calculate_price st "individual" 2 3 = Ret (PInt 720)
     ∧ calculate_price st "squad" 2 players = Ret (PInt 800)).
Proof.
  split; [|split].
  - intros rate Hrate. unfold calculate_price, base_price.
    rewrite Hrate. by case_bool_decide.
  - intros rate Hrate. unfold calculate_price, base_price.
    rewrite Hrate. by case_bool_decide.
  - intros Hdef. unfold calculate_price, base_price. rewrite Hdef. done.
Qed.

Lemma calculate_price_formula_witness :
  calculate_price (rt := sample_interpreter) empty_store "racing" 3 4
  = Ret (PInt 450)
  ∧ calculate_price (rt := sample_interpreter) empty_store "individual" 2 3
    = Ret (PInt 720)
  ∧ calculate_price (rt := sample_interpreter) empty_store "squad" 2 9
    = Ret (PInt 800).
Proof.
  split.
  - apply (proj1 (calculate_price_formula (rt := sample_interpreter)
                    empty_store "racing" 3 4) 150%Z).
    reflexivity.
  - apply (proj2 (proj2 (calculate_price_formula (rt := sample_interpreter)
                           empty_store "racing" 2 9))).
    reflexivity.
Defined.

(** C9 (amended).  The calculator raises the KeyError of the rate lookup,
    the UnknownSetupType failure, exactly when the setup type is not a key
    of the effective rate table.  For a setup type of the table it returns
    a whole number exactly when the stored rate is a whole number or a
    truth value; a rate that is null or an object makes it raise a
    TypeError, and the only other failure is the overflow of a product. *)
Theorem calculate_price_fails_iff_unknown {rt : Interpreter} (st : Store)
    (setup_type : string) (duration players : Z) :
  (calculate_price st setup_type duration players
   = Raise (UnknownSetupType setup_type)
   ↔ base_prices st !! setup_type = None)
  ∧ (∀ rate, base_prices st !! setup_type = Some rate →
       ((∃ amount : Z,
           calculate_price st setup_type duration players = Ret (PInt amount))
        ↔ (∃ n : Z, rate = PInt n) ∨ (∃ flag : bool, rate = PBool flag))
       ∧ ((rate = PNone ∨ ∃ fields, rate = PDict fields) →
          calculate_price st setup_type duration players = Raise TypeError)
       ∧ (∀ e, calculate_price st setup_type duration players = Raise e →
            (e = TypeError ∧ (rate = PNone ∨ ∃ fields, rate = PDict fields))
            ∨ e = OverflowError)).
Proof.
  unfold calculate_price, base_price, UnknownSetupType. split.
  - destruct (base_prices st !! setup_type) as [rate|]; case_bool_decide;
      simpl; (split; [|done]); try done.
    all: destruct rate; simpl; try discriminate.
    all: repeat (match goal with
                 | |- context [or_overflow ?r] => destruct r; simpl
                 end); discriminate.
  - intros rate ->. simpl. split; [|split].
    + split.
      * intros [amount Hret]. destruct rate; eauto; exfalso.
        all: case_bool_decide; simpl in Hret; try discriminate.
        all: repeat (match type of Hret with
                     | context [or_overflow ?r] => destruct r; simpl in Hret
                     end); discriminate.
      * intros [[n ->] | [flag ->]]; case_bool_decide; simpl; eauto.
    + intros [-> | [fields ->]]; by case_bool_decide.
    + intros e Hraise. destruct rate; case_bool_decide; simpl in Hraise.
      all: try discriminate.
      all: try (left; split; [congruence|eauto]; fail).
      all: right.
      all: repeat (match type of Hraise with
                   | context [or_overflow ?r] => destruct r; simpl in Hraise
                   end); congruence.
Qed.

Lemma calculate_price_fails_iff_unknown_witness :
  ∃ amount : Z,
    calculate_price (rt := sample_interpreter) empty_store "pool" 2 5
    = Ret (PInt amount).
Proof.
  apply (proj1 (proj2 (calculate_price_fails_iff_unknown
                         (rt := sample_interpreter) empty_store "pool" 2 5)
                  (PInt 400) eq_refl)).
  left. exists 400%Z. reflexivity.
Defined.

(** C9 fails as stated: after the pricing route has stored the body
    {"squad": null, "pool": "400"} over the seeded rates, squad and pool
    are keys of the rate table, yet the price of a squad booking raises a
    TypeError, which is not the failure of an unknown setup type, and the
    price of a pool booking of two hours is the text 400400, not a whole
    number. *)
Lemma null_rate_raises_type_error :
  base_prices odd_rates_store !! "squad" = Some PNone
  ∧ base_prices odd_rates_store !! "pool" = Some (PStr "400")
  ∧ calculate_price (rt := sample_interpreter) odd_rates_store "squad" 2 1
    = Raise TypeError
  ∧ calculate_price (rt := sample_interpreter) odd_rates_store "pool" 2 1
    = Ret (PStr "400400")
  ∧ Raise (A := pyval) TypeError ≠ Raise (UnknownSetupType "squad")
  ∧ ∀ amount : Z, Ret (PStr "400400") ≠ Ret (PInt amount).
Proof.
  split; [|split; [|split; [|split; [|split]]]].
  - by vm_compute.
  - by vm_compute.
  - by vm_compute.
  - by vm_compute.
  - discriminate.
  - intros amount. discriminate.
Qed.

(** ** The booking lifecycle *)

Section Lifecycle.

Context {rt : Interpreter}.

Implicit Types (st : Store) (b : Booking) (data : UpdateData).

Lemma updated_booking_alter st booking_id b (f : Booking → Booking) :
  bookings st !! booking_id = Some b →
  updated_booking (set_bookings st (alter f booking_id (bookings st))) booking_id
  = Success (booking_id, f b).
Proof.
  intros Hb. unfold updated_booking. simpl.
  by rewrite lookup_alter_eq, Hb.
Qed.

Lemma available_inv st (date slot : string) :
  slot ∈ get_available_time_slots st date →
  slot ∈ all_slots ∧ booked st date slot < total_setups st.
Proof.
  rewrite get_available_time_slots_filter.
  intros [? ?]%list_elem_of_filter. done.
Qed.

(** Every canonical label passes the hour check of a reschedule. *)
Lemma canonical_hour (slot : string) :
  slot ∈ all_slots →
  ∃ hour, PyStr.int (PyStr.split_first ":" slot) = Some hour
          ∧ ¬ (hour < 10 ∨ hour > 23)%Z.
Proof.
  rewrite all_slots_eq. rewrite !elem_of_cons, elem_of_nil.
  intros H.
  repeat (destruct H as [-> | H];
          [eexists; split; [by vm_compute|intros [?|?]; done]|]).
  done.
Qed.

(** What the request decides: a cancel request leaves the status cancelled;
    any other request leaves the status as it was, or rescheduled when it
    carries a date and a time that the resolver offers on that date. *)
Lemma apply_update_request st booking_id data now b :
  bookings st !! booking_id = Some b →
  ∃ b', bookings (apply_update st booking_id data now).2 !! booking_id = Some b'
        ∧ (bk_status b' = bk_status b ∨ bk_status b' = "cancelled"
           ∨ bk_status b' = "rescheduled")
        ∧ (ud_status data = Some "cancelled" → bk_status b' = "cancelled")
        ∧ (ud_status data ≠ Some "cancelled" →
           bk_status b' = bk_status b
           ∨ (bk_status b' = "rescheduled"
              ∧ ∃ date time, ud_date data = Some date
                             ∧ ud_time data = Some time
                             ∧ time ∈ get_available_time_slots st date)).
Proof.
  intros Hb. unfold apply_update.
  assert (Hsame : ud_status data ≠ Some "cancelled" →
            ∃ b', bookings st !! booking_id = Some b'
                  ∧ (bk_status b' = bk_status b ∨ bk_status b' = "cancelled"
                     ∨ bk_status b' = "rescheduled")
                  ∧ (ud_status data = Some "cancelled" →
                     bk_status b' = "cancelled")
                  ∧ (ud_status data ≠ Some "cancelled" →
                     bk_status b' = bk_status b
                     ∨ (bk_status b' = "rescheduled"
                        ∧ ∃ date time,
                            ud_date data = Some date ∧ ud_time data = Some time
                            ∧ time ∈ get_available_time_slots st date))).
  { intros Hreq. exists b. split; [done|]. split; [by left|].
    split; [done|]. intros _. by left. }
  case_bool_decide as Hreq.
  { simpl. rewrite lookup_alter_eq, Hb. simpl.
    eexists. split; [done|]. split; [auto|]. split; done. }
  destruct (ud_date data) as [date|]; [|by apply Hsame].
  destruct (ud_time data) as [time|]; [|by apply Hsame].
  destruct (PyStr.int _) as [hour|]; [|by apply Hsame].
  case_bool_decide; [by apply Hsame|].
  case_bool_decide as Hin; [by apply Hsame|].
  simpl. rewrite lookup_alter_eq, Hb. simpl.
  eexists. split; [done|]. split; [auto|]. split; [done|].
  intros _. right. split; [done|].
  exists date, time. split; [done|]. split; [done|].
  by destruct (decide (time ∈ get_available_time_slots st date)).
Qed.

(** A request that is no cancel request and carries a date and a time that
    the resolver offers on that date is carried out. *)
Lemma apply_update_available st booking_id data now b (date time : string) :
  bookings st !! booking_id = Some b →
  ud_status data ≠ Some "cancelled" →
  ud_date data = Some date → ud_time data = Some time →
  time ∈ get_available_time_slots st date →
  apply_update st booking_id data now
  = (Success (booking_id, update_reschedule b date time now),
     set_bookings st
       (alter (λ b, update_reschedule b date time now) booking_id
          (bookings st))).
Proof.
  intros Hb Hreq Hd Ht Hin.
  destruct (canonical_hour time) as (hour & Hh & Hrange);
    [by apply available_inv in Hin as [? _]|].
  unfold apply_update. rewrite bool_decide_eq_false_2 by done.
  rewrite Hd, Ht, Hh. rewrite bool_decide_eq_false_2 by done.
  rewrite bool_decide_eq_false_2 by (by intros ?).
  by rewrite (updated_booking_alter st booking_id b).
Qed.

(** A failing update writes nothing. *)
Lemma apply_update_failure st booking_id data now b e st' :
  bookings st !! booking_id = Some b →
  apply_update st booking_id data now = (Failure e, st') → st' = st.
Proof.
  intros Hb. unfold apply_update.
  case_bool_decide.
  { rewrite (updated_booking_alter st booking_id b) by done. congruence. }
  destruct (ud_date data) as [date|]; [|congruence].
  destruct (ud_time data) as [time|]; [|congruence].
  destruct (PyStr.int _) as [hour|]; [|congruence].
  case_bool_decide; [congruence|].
  case_bool_decide; [congruence|].
  rewrite (updated_booking_alter st booking_id b) by done. congruence.
Qed.

Lemma apply_update_bad_hour st booking_id new_date new_time now hour :
  PyStr.int (PyStr.split_first ":" new_time) = Some hour →
  (hour < 10 ∨ hour > 23)%Z →
  apply_update st booking_id (reschedule_data new_date new_time) now
  = (Failure (InvalidTimeFormat hours_message), st).
Proof.
  intros Hint Hhour. unfold apply_update. simpl.
  rewrite Hint. by rewrite bool_decide_eq_true_2.
Qed.

End Lifecycle.

(** ** Claims about the lifecycle manager *)

(** C1 (amended).  On both update routes, a booking whose status is one of
    confirmed, cancelled, rescheduled keeps its status or makes one of the
    listed transitions confirmed → cancelled, confirmed → rescheduled,
    rescheduled → cancelled, rescheduled → rescheduled, or it moves from
    cancelled to rescheduled: a reschedule does not look at the current
    status.  What the request asks for decides which.  A cancel request
    leaves a cancelled booking cancelled, and leaves any booking cancelled
    unless the user route refuses it for a caller who is not the owner.  A
    request that is no cancel request changes the status only to
    rescheduled, and only when it carries a date and a time that the
    resolver offers on that date; and when it does carry them, on the admin
    route or for the owner, the status becomes rescheduled whatever it was.
    No update returns a booking to confirmed. *)
Theorem update_status_transitions {rt : Interpreter} (st : Store)
    (user_id booking_id : string) (data : UpdateData) (now : string)
    (b : Booking) :
  bookings st !! booking_id = Some b →
  bk_status b ∈ ["confirmed"; "cancelled"; "rescheduled"] →
  ∀ st', st' = (update_booking st booking_id data now).2
         ∨ st' = (update_user_booking st user_id booking_id data now).2 →
    ∃ b', bookings st' !! booking_id = Some b'
          ∧ (bk_status b' = bk_status b
             ∨ spec_transition (bk_status b) (bk_status b')
             ∨ (bk_status b = "cancelled" ∧ bk_status b' = "rescheduled"))
          ∧ (ud_status data = Some "cancelled" →
             (bk_status b = "cancelled" → bk_status b' = "cancelled")
             ∧ (bk_status b' = "cancelled"
                ∨ (st' = st ∧ b' = b ∧ user_id ≠ bk_user_id b)))
          ∧ (ud_status data ≠ Some "cancelled" →
             (bk_status b' = bk_status b
              ∨ (bk_status b' = "rescheduled"
                 ∧ ∃ date time, ud_date data = Some date
                                ∧ ud_time data = Some time
                                ∧ time ∈ get_available_time_slots st date))
             ∧ (∀ date time,
                  ud_date data = Some date → ud_time data = Some time →
                  time ∈ get_available_time_slots st date →
                  st' = (update_booking st booking_id data now).2
                  ∨ user_id = bk_user_id b →
                  bk_status b' = "rescheduled"))
          ∧ (bk_status b ≠ "confirmed" → bk_status b' ≠ "confirmed").
Proof.
  intros Hb Hst st' Hst'.
  assert (Hadmin :
    ∃ b', bookings (update_booking st booking_id data now).2 !! booking_id
          = Some b'
          ∧ (bk_status b' = bk_status b ∨ bk_status b' = "cancelled"
             ∨ bk_status b' = "rescheduled")
          ∧ (ud_status data = Some "cancelled" → bk_status b' = "cancelled")
          ∧ (ud_status data ≠ Some "cancelled" →
             bk_status b' = bk_status b
             ∨ (bk_status b' = "rescheduled"
                ∧ ∃ date time, ud_date data = Some date
                               ∧ ud_time data = Some time
                               ∧ time ∈ get_available_time_slots st date))
          ∧ (ud_status data ≠ Some "cancelled" →
             ∀ date time,
               ud_date data = Some date → ud_time data = Some time →
               time ∈ get_available_time_slots st date →
               bk_status b' = "rescheduled")).
  { unfold update_booking. rewrite Hb.
    destruct (apply_update_request st booking_id data now b Hb)
      as (b' & Hb' & Hany & Hcancel & Hother).
    exists b'. split; [done|]. split; [done|]. split; [done|].
    split; [done|].
    intros Hreq date time Hd Ht Hin. revert Hb'.
    rewrite (apply_update_available st booking_id data now b date time)
      by done.
    simpl. rewrite lookup_alter_eq, Hb. by intros [= <-]. }
  assert (Hcase : st' = (update_booking st booking_id data now).2
                  ∨ (st' = st ∧ user_id ≠ bk_user_id b)).
  { destruct Hst' as [-> | ->]; [by left|].
    unfold update_user_booking, update_booking. rewrite Hb.
    case_bool_decide as Howner; [right|left]; [|done].
    split; [done|]. by intros ->. }
  destruct Hadmin as (ba & Hba & Hany & Hcancel & Hother & Hdone).
  assert (Hkeep : ∀ s, s = bk_status b ∨ s = "cancelled" ∨ s = "rescheduled" →
            (s = bk_status b ∨ spec_transition (bk_status b) s
             ∨ (bk_status b = "cancelled" ∧ s = "rescheduled"))
            ∧ (bk_status b ≠ "confirmed" → s ≠ "confirmed")).
  { intros s Hs. rewrite !elem_of_cons, elem_of_nil in Hst.
    unfold spec_transition.
    destruct Hst as [Hold | [Hold | [Hold | []]]];
      destruct Hs as [-> | [-> | ->]]; rewrite Hold;
      (split; [tauto|intros ?; congruence]). }
  destruct Hcase as [-> | [-> Hne]].
  - exists ba. split; [done|].
    destruct (Hkeep (bk_status ba) Hany) as [Htrans Hconf].
    split; [done|]. split; [|split; [|done]].
    + intros Hreq. split; [|left]; auto.
    + intros Hreq. split; [auto|]. intros date time ? ? ? _. eauto.
  - exists b. split; [done|].
    destruct (Hkeep (bk_status b) (or_introl eq_refl)) as [Htrans Hconf].
    split; [done|]. split; [|split; [|done]].
    + intros Hreq. split; [done|]. right. done.
    + intros Hreq. split; [by left|].
      intros date time Hd Ht Hin [Hsame | Hown]; [|done].
      rewrite <- Hsame, Hb in Hba. injection Hba as <-. eauto.
Qed.

Lemma update_status_transitions_witness :
  ∃ b', bookings (update_booking (rt := sample_interpreter) sample_store "b2"
                    cancel_data "2025-05-31T10:00:00").2 !! "b2" = Some b'
        ∧ bk_status b' = "cancelled"
        ∧ bk_status b' ≠ "confirmed".
Proof.
  destruct (update_status_transitions (rt := sample_interpreter) sample_store
              "u1" "b2" cancel_data "2025-05-31T10:00:00"
              (sample_booking "u1" "14:00" "cancelled") eq_refl
              ltac:(apply (bool_decide_unpack _); vm_compute; exact I)
              _ (or_introl eq_refl))
    as (b' & Hb' & _ & Hcancel & _ & Hconfirmed).
  exists b'. split; [exact Hb'|]. split.
  - apply Hcancel; reflexivity.
  - apply Hconfirmed. discriminate.
Defined.

(** C1 fails as stated: the admin route reschedules the cancelled booking
    b2 of the sample store, which leaves it with status rescheduled; the
    pair cancelled, rescheduled is none of the listed transitions. *)
Lemma cancelled_booking_is_rescheduled :
  bk_status <$> bookings sample_store !! "b2" = Some "cancelled"
  ∧ bk_status <$> bookings (update_booking (rt := sample_interpreter)
                              sample_store "b2"
                              (reschedule_data "2025-06-02" "11:00")
                              "2025-05-31T10:00:00").2 !! "b2"
    = Some "rescheduled"
  ∧ ¬ spec_transition "cancelled" "rescheduled".
Proof.
  split; [by vm_compute|]. split; [by vm_compute|].
  unfold spec_transition. intros [[? _] | [[? _] | [? _]]]; discriminate.
Qed.

(** C5 (amended).  For an existing booking and a new time whose hour is
    below 10 or above 23, a reschedule on the admin route, and on the user
    route by the booking's owner, fails with the invalid-time error and
    writes nothing, in every store, hence whatever the availability on the
    new date; on the user route a caller who does not own the booking is
    refused with Forbidden before the time is looked at. *)
Theorem reschedule_rejects_hour_out_of_range {rt : Interpreter} (st : Store)
    (booking_id : string) (b : Booking) (new_date new_time now : string)
    (hour : Z) :
  bookings st !! booking_id = Some b →
  PyStr.int (PyStr.split_first ":" new_time) = Some hour →
  (hour < 10 ∨ hour > 23)%Z →
  update_booking st booking_id (reschedule_data new_date new_time) now
  = (Failure (InvalidTimeFormat hours_message), st)
  ∧ update_user_booking st (bk_user_id b) booking_id
      (reschedule_data new_date new_time) now
    = (Failure (InvalidTimeFormat hours_message), st)
  ∧ (∀ user_id, user_id ≠ bk_user_id b →
       update_user_booking st user_id booking_id
         (reschedule_data new_date new_time) now
       = (Failure Forbidden, st)).
Proof.
  intros Hb Hint Hhour. unfold update_booking, update_user_booking.
  rewrite Hb. split; [|split].
  - by apply (apply_update_bad_hour _ _ _ _ _ hour).
  - rewrite bool_decide_eq_false_2 by (intros Hne; by apply Hne).
    by apply (apply_update_bad_hour _ _ _ _ _ hour).
  - intros user_id Hne. by rewrite bool_decide_eq_true_2.
Qed.

Lemma reschedule_rejects_hour_out_of_range_witness :
  update_booking (rt := sample_interpreter) sample_store "b1"
    (reschedule_data "2025-06-02" "24:00") "2025-05-31T10:00:00"
  = (Failure (InvalidTimeFormat hours_message), sample_store).
Proof.
  apply (reschedule_rejects_hour_out_of_range (rt := sample_interpreter)
           sample_store "b1"
           (sample_booking "u1" "14:00" "confirmed") "2025-06-02" "24:00"
           "2025-05-31T10:00:00" 24).
  - reflexivity.
  - reflexivity.
  - right. reflexivity.
Defined.

(** C5 fails as stated: booking b1 exists and the hour of 09:00 is 9, yet
    the reschedule that user u2 sends for it on the user route fails with
    Forbidden, not with an invalid-time error. *)
Lemma reschedule_by_other_user_is_forbidden :
  bookings sample_store !! "b1" = Some (sample_booking "u1" "14:00" "confirmed")
  ∧ PyStr.int (rt := sample_interpreter) (PyStr.split_first ":" "09:00")
    = Some 9%Z
  ∧ update_user_booking (rt := sample_interpreter) sample_store "u2" "b1"
      (reschedule_data "2025-06-02" "09:00") "2025-05-31T10:00:00"
    = (Failure Forbidden, sample_store)
  ∧ ∀ msg, Failure (A := string * Booking) Forbidden
           ≠ Failure (InvalidTimeFormat msg).
Proof.
  split; [by vm_compute|]. split; [by vm_compute|]. split; [by vm_compute|].
  intros msg. discriminate.
Qed.

(** C6 (amended).  When the id and the email are both given and not empty,
    the lookup fails with NotFound if no booking has the id, with Forbidden
    if the booking exists and its stored email differs from the email
    given, and returns the booking with its id if the two emails are equal.
    When the id or the email is absent or empty, it fails with a validation
    error and looks nothing up. *)
Theorem check_booking_outcomes (st : Store) (booking_id email : string) :
  booking_id ≠ "" → email ≠ "" →
  (bookings st !! booking_id = None →
   check_booking st (Some booking_id) (Some email) = Failure NotFound)
  ∧ (∀ b, bookings st !! booking_id = Some b → bk_email b ≠ email →
       check_booking st (Some booking_id) (Some email) = Failure Forbidden)
  ∧ (∀ b, bookings st !! booking_id = Some b → bk_email b = email →
       check_booking st (Some booking_id) (Some email)
       = Success (booking_id, b))
  ∧ (∀ id_arg email_arg, given id_arg && given email_arg = false →
       check_booking st id_arg email_arg
       = Failure (ValidationError "Booking ID and email are required")).
Proof.
  intros Hid Hemail.
  assert (Hgiven : negb (given (Some booking_id)) || negb (given (Some email))
                   = false).
  { simpl. by rewrite !bool_decide_eq_false_2. }
  unfold check_booking. rewrite Hgiven. repeat split.
  - by intros ->.
  - intros b -> Hne. by rewrite bool_decide_eq_true_2.
  - intros b -> Heq. by rewrite bool_decide_eq_false_2 by (by intros ?).
  - intros id_arg email_arg Hargs.
    destruct (given id_arg), (given email_arg); done.
Qed.

Lemma check_booking_outcomes_witness :
  check_booking sample_store (Some "b9") (Some "ann@example.org")
  = Failure NotFound
  ∧ check_booking sample_store (Some "b1") (Some "bob@example.org")
    = Failure Forbidden
  ∧ check_booking sample_store (Some "b1") (Some "ann@example.org")
    = Success ("b1", sample_booking "u1" "14:00" "confirmed").
Proof.
  split; [|split].
  - apply (check_booking_outcomes sample_store "b9" "ann@example.org");
      reflexivity || discriminate.
  - eapply (proj1 (proj2 (check_booking_outcomes sample_store "b1"
                            "bob@example.org" ltac:(discriminate)
                            ltac:(discriminate))));
      reflexivity || discriminate.
  - eapply (proj1 (proj2 (proj2 (check_booking_outcomes sample_store "b1"
                                   "ann@example.org" ltac:(discriminate)
                                   ltac:(discriminate)))));
      reflexivity.
Defined.

(** C6 fails as stated: with an empty email the lookup fails with a
    validation error, both for the id b9 that no booking has, where the
    claim says NotFound, and for the booking b1, whose stored email differs
    from the empty one, where the claim says Forbidden. *)
Lemma check_booking_empty_email :
  bookings sample_store !! "b9" = None
  ∧ check_booking sample_store (Some "b9") (Some "")
    = Failure (ValidationError "Booking ID and email are required")
  ∧ (bk_email <$> bookings sample_store !! "b1") = Some "ann@example.org"
  ∧ check_booking sample_store (Some "b1") (Some "")
    = Failure (ValidationError "Booking ID and email are required").
Proof. repeat split; by vm_compute. Qed.

(** C7 (amended).  A create request that carries the five required fields
    and whose time is not in the resolver's result for its date fails with
    SlotUnavailable and leaves the store as it was; a request that lacks a
    required field fails with a validation error naming the first such
    field; every failing create, whatever its body, leaves the store as it
    was; a successful create returns the generated identifier with a
    booking of status confirmed whose price is the one the pricing
    calculator computes, and the store it leaves holds that booking under
    that identifier; and a create succeeds when the slot is available, the
    user exists, both numbers convert and the rate is known. *)
Theorem create_booking_checks_availability {rt : Interpreter} (st : Store)
    (user_id setup : string) (players : json) (date time : string)
    (duration : json) (new_id now : string) :
  (time ∉ get_available_time_slots st date →
   create_booking st user_id (create_data setup players date time duration)
     new_id now
   = (Failure SlotUnavailable, st))
  ∧ (∀ body field,
       missing_field body = Some field →
       create_booking st user_id body new_id now
       = (Failure (ValidationError ("Missing required field: " ++ field)), st))
  ∧ (∀ body e st',
       create_booking st user_id body new_id now = (Failure e, st') → st' = st)
  ∧ (∀ id b st',
       create_booking st user_id (create_data setup players date time duration)
         new_id now
       = (Success (id, b), st') →
       id = new_id ∧ bk_status b = "confirmed"
       ∧ (∃ d p, py_int duration = Ret d ∧ py_int players = Ret p
                 ∧ calculate_price st setup d p = Ret (bk_price b))
       ∧ bk_date b = date ∧ bk_time b = time
       ∧ time ∈ get_available_time_slots st date
       ∧ bookings st' = <[new_id := b]> (bookings st))
  ∧ (∀ u d p price,
       time ∈ get_available_time_slots st date →
       users st !! user_id = Some u →
       py_int duration = Ret d → py_int players = Ret p →
       calculate_price st setup d p = Ret price →
       ∃ b, create_booking st user_id
              (create_data setup players date time duration) new_id now
            = (Success (new_id, b),
               set_bookings st (<[new_id := b]> (bookings st)))
            ∧ bk_status b = "confirmed" ∧ bk_price b = price).
Proof.
  split; [|split; [|split; [|split]]].
  - intros Hout. unfold create_booking. simpl.
    by rewrite bool_decide_eq_true_2.
  - intros body field Hmiss. unfold create_booking. by rewrite Hmiss.
  - intros body e st'. unfold create_booking.
    destruct (missing_field body); [congruence|].
    destruct (cd_setup body), (cd_players body), (cd_date body),
      (cd_time body), (cd_duration body); try congruence.
    case_bool_decide; [congruence|].
    destruct (py_bind _ _); congruence.
  - intros id b st'. unfold create_booking. simpl.
    case_bool_decide as Hin; [congruence|].
    destruct (py_int duration) as [d|]; simpl; [|congruence].
    destruct (py_int players) as [p|]; simpl; [|congruence].
    destruct (calculate_price st setup d p) as [price|] eqn:Hprice; simpl;
      [|congruence].
    destruct (users st !! user_id) as [u|]; simpl; [|congruence].
    intros [= <- <- <-]. simpl. repeat split; try done.
    exists d, p. done.
  - intros u d p price Hin Hu Hd Hp Hprice.
    unfold create_booking. simpl.
    rewrite bool_decide_eq_false_2 by (by intros ?).
    rewrite Hd, Hp. simpl. rewrite Hprice, Hu. simpl.
    eexists. split; [reflexivity|]. done.
Qed.

Lemma create_booking_checks_availability_witness :
  create_booking (rt := sample_interpreter) sample_store "u1"
    (create_data "individual" (JInt 3) "2025-06-01" "09:00" (JInt 2))
    "b4" "2025-05-31T10:00:00"
  = (Failure SlotUnavailable, sample_store)
  ∧ ∃ b, create_booking (rt := sample_interpreter) sample_store "u1"
           (create_data "individual" (JInt 3) "2025-06-01" "14:00" (JStr "2"))
           "b4" "2025-05-31T10:00:00"
         = (Success ("b4", b),
            set_bookings sample_store (<["b4" := b]> (bookings sample_store)))
         ∧ bk_status b = "confirmed" ∧ bk_price b = PInt 720.
Proof.
  split.
  - apply (create_booking_checks_availability (rt := sample_interpreter)
             sample_store "u1" "individual"
             (JInt 3) "2025-06-01" "09:00" (JInt 2) "b4" "2025-05-31T10:00:00").
    apply (bool_decide_unpack _). vm_compute. exact I.
  - apply (proj2 (proj2 (proj2 (proj2 (create_booking_checks_availability
             (rt := sample_interpreter)
             sample_store "u1" "individual" (JInt 3) "2025-06-01" "14:00"
             (JStr "2") "b4" "2025-05-31T10:00:00"))))
             {| u_email := "ann@example.org"; u_password := "5e88";
                u_name := "Ann"; u_phone := "555";
                u_created_at := "2025-05-01T08:00:00" |} 2%Z 3%Z (PInt 720)).
    + apply (bool_decide_unpack _). vm_compute. exact I.
    + reflexivity.
    + reflexivity.
    + reflexivity.
    + reflexivity.
Defined.

(** C7 fails as stated: 09:00 is not in the resolver's result for
    2025-06-01, yet a create request for that date and time whose body has
    no setup key fails with the missing-field error, not with
    SlotUnavailable. *)
Lemma create_without_setup_is_missing_field :
  ("09:00" ∉ get_available_time_slots sample_store "2025-06-01")
  ∧ create_booking (rt := sample_interpreter) sample_store "u1"
      {| cd_setup := None; cd_players := Some (JInt 3);
         cd_date := Some "2025-06-01"; cd_time := Some "09:00";
         cd_duration := Some (JInt 2) |}
      "b4" "2025-05-31T10:00:00"
    = (Failure (ValidationError "Missing required field: setup"), sample_store)
  ∧ ValidationError "Missing required field: setup" ≠ SlotUnavailable.
Proof.
  split; [|split].
  - apply (bool_decide_unpack _). by vm_compute.
  - by vm_compute.
  - discriminate.
Qed.

(** * Further properties of the handlers *)

(** ** How one write changes the counts *)

Section Effects.

Context {rt : Interpreter}.

Implicit Types (st : Store) (b : Booking) (id date slot : string).

Lemma filter_sublist_impl {A} (P Q : A → Prop) `{!∀ x, Decision (P x)}
    `{!∀ x, Decision (Q x)} (l : list A) :
  (∀ x, P x → Q x) → filter P l `sublist_of` filter Q l.
Proof.
  intros HPQ. induction l as [|x l IH]; [done|].
  rewrite !filter_cons. destruct (decide (P x)) as [HP|HP].
  - rewrite decide_True by auto. by apply sublist_skip.
  - destruct (decide (Q x)); [by apply sublist_cons|done].
Qed.

Lemma alter_as_insert (m : gmap string Booking) id b (f : Booking → Booking) :
  m !! id = Some b → alter f id m = <[id := f b]> m.
Proof.
  intros Hb. rewrite <- (insert_id m id b) at 1 by done.
  apply alter_insert_eq.
Qed.

Lemma booked_delete st id b date slot :
  bookings st !! id = Some b →
  booked (set_bookings st (delete id (bookings st))) date slot
  + counts b date slot
  = booked st date slot.
Proof. intros Hb. by rewrite (booked_lookup st id b). Qed.

Lemma booked_delete_le st id date slot :
  (booked (set_bookings st (delete id (bookings st))) date slot
   ≤ booked st date slot)%nat.
Proof.
  destruct (bookings st !! id) as [b|] eqn:Hb.
  - rewrite <- (booked_delete st id b date slot) by done. lia.
  - rewrite delete_id by done. by destruct st.
Qed.

Lemma booked_alter st id b (f : Booking → Booking) date slot :
  bookings st !! id = Some b →
  booked (set_bookings st (alter f id (bookings st))) date slot
  + counts b date slot
  = booked st date slot + counts (f b) date slot.
Proof.
  intros Hb. rewrite (alter_as_insert _ id b) by done.
  rewrite booked_insert, <- (booked_delete st id b date slot) by done. lia.
Qed.

Lemma counts_cancelled b date slot :
  counts (update_status b "cancelled") date slot = 0.
Proof. unfold counts. rewrite decide_False; [done|]. simpl. tauto. Qed.

Lemma counts_reschedule b new_date new_time now date slot :
  counts (update_reschedule b new_date new_time now) date slot
  = if bool_decide (date = new_date ∧ slot = new_time) then 1 else 0.
Proof.
  unfold counts. simpl. case_bool_decide as Heq.
  - destruct Heq as [-> ->]. by rewrite decide_True.
  - rewrite decide_False; [done|]. intros (<- & _ & <-). by apply Heq.
Qed.

Lemma counts_le_1 b date slot : (counts b date slot ≤ 1)%nat.
Proof. unfold counts. case_decide; lia. Qed.

Lemma available_intro st date slot :
  slot ∈ all_slots → booked st date slot < total_setups st →
  slot ∈ get_available_time_slots st date.
Proof.
  intros Hin Hlt. rewrite get_available_time_slots_filter.
  by apply list_elem_of_filter.
Qed.

Lemma total_setups_no_flag st :
  map_Forall (λ _ flag, flag = false) (available_setups st) →
  total_setups st = 0.
Proof.
  intros Hall. unfold total_setups.
  destruct (filter _ _) as [|[setup flag] l] eqn:Hf; [done|]. exfalso.
  assert (Hin : (setup, flag) ∈ (setup, flag) :: l) by apply list_elem_of_here.
  rewrite <- Hf in Hin. apply list_elem_of_filter in Hin as [Htrue Hin].
  apply elem_of_map_to_list in Hin. apply Hall in Hin. simpl in *. congruence.
Qed.

End Effects.

(** ** The handlers as writes *)

Section Writes.

Context {rt : Interpreter}.

Implicit Types (st : Store) (b : Booking) (id date slot : string).

Lemma create_booking_success st user_id body new_id now r st' :
  create_booking st user_id body new_id now = (Success r, st') →
  ∃ b u, r = (new_id, b)
         ∧ st' = set_bookings st (<[new_id := b]> (bookings st))
         ∧ cd_date body = Some (bk_date b) ∧ cd_time body = Some (bk_time b)
         ∧ bk_time b ∈ get_available_time_slots st (bk_date b)
         ∧ bk_status b = "confirmed" ∧ bk_user_id b = user_id
         ∧ users st !! user_id = Some u
         ∧ bk_name b = u_name u ∧ bk_email b = u_email u
         ∧ bk_phone b = u_phone u.
Proof.
  unfold create_booking.
  destruct (missing_field body); [congruence|].
  destruct (cd_setup body) as [setup|], (cd_players body) as [players|],
    (cd_date body) as [date|], (cd_time body) as [time|],
    (cd_duration body) as [duration|]; try congruence.
  case_bool_decide as Hin; [congruence|].
  destruct (py_int duration) as [d|]; simpl; [|congruence].
  destruct (py_int players) as [p|]; simpl; [|congruence].
  destruct (calculate_price st setup d p) as [price|]; simpl; [|congruence].
  destruct (users st !! user_id) as [u|]; simpl; [|congruence].
  intros [= <- <-]. eexists _, u. simpl. repeat split; done.
Qed.

Lemma create_booking_failure st user_id body new_id now e st' :
  create_booking st user_id body new_id now = (Failure e, st') → st' = st.
Proof.
  unfold create_booking.
  destruct (missing_field body); [congruence|].
  destruct (cd_setup body), (cd_players body), (cd_date body),
    (cd_time body), (cd_duration body); try congruence.
  case_bool_decide; [congruence|].
  destruct (py_bind _ _); congruence.
Qed.

Lemma create_booking_write st user_id body new_id now :
  booking_write st (create_booking st user_id body new_id now).2.
Proof.
  destruct (create_booking st user_id body new_id now) as [[r|e] st'] eqn:Hc.
  - apply create_booking_success in Hc as (b & u & _ & -> & _ & _ & Hin & _).
    simpl. by apply write_create.
  - apply create_booking_failure in Hc as ->. apply write_none.
Qed.

(** What an update does to a document that exists. *)
Lemma apply_update_cases st id data now b :
  bookings st !! id = Some b →
  (ud_status data = Some "cancelled"
   ∧ apply_update st id data now
     = (Success (id, update_status b "cancelled"),
        set_bookings st (<[id := update_status b "cancelled"]> (bookings st))))
  ∨ (∃ new_date new_time,
       ud_status data ≠ Some "cancelled"
       ∧ ud_date data = Some new_date ∧ ud_time data = Some new_time
       ∧ new_time ∈ get_available_time_slots st new_date
       ∧ apply_update st id data now
         = (Success (id, update_reschedule b new_date new_time now),
            set_bookings st
              (<[id := update_reschedule b new_date new_time now]>
                 (bookings st))))
  ∨ (∃ e, ud_status data ≠ Some "cancelled"
          ∧ apply_update st id data now = (Failure e, st)).
Proof.
  intros Hb. unfold apply_update. case_bool_decide as Hc.
  { left. split; [done|]. rewrite (updated_booking_alter st id b) by done.
    by rewrite (alter_as_insert _ id b). }
  right.
  destruct (ud_date data) as [new_date|]; [|right; eauto].
  destruct (ud_time data) as [new_time|]; [|right; eauto].
  destruct (PyStr.int _) as [hour|]; [|right; eauto].
  case_bool_decide; [right; eauto|].
  case_bool_decide as Hin; [right; eauto|].
  left. exists new_date, new_time. repeat split; try done.
  rewrite (updated_booking_alter st id b) by done.
  by rewrite (alter_as_insert _ id b).
Qed.

Lemma apply_update_write st id data now b :
  bookings st !! id = Some b →
  booking_write st (apply_update st id data now).2.
Proof.
  intros Hb.
  destruct (apply_update_cases st id data now b Hb)
    as [[_ ->] | [(d & t & _ & _ & _ & Hin & ->) | (e & _ & ->)]]; simpl.
  - by apply write_cancel.
  - by apply write_reschedule.
  - apply write_none.
Qed.

Lemma update_booking_write st id data now :
  booking_write st (update_booking st id data now).2.
Proof.
  unfold update_booking. destruct (bookings st !! id) as [b|] eqn:Hb.
  - by apply (apply_update_write st id data now b).
  - apply write_none.
Qed.

Lemma update_user_booking_write st user_id id data now :
  booking_write st (update_user_booking st user_id id data now).2.
Proof.
  unfold update_user_booking. destruct (bookings st !! id) as [b|] eqn:Hb.
  - case_bool_decide; [apply write_none|].
    by apply (apply_update_write st id data now b).
  - apply write_none.
Qed.

Lemma delete_booking_write st id :
  booking_write st (delete_booking st id).2.
Proof.
  unfold delete_booking. destruct (bookings st !! id);
    [apply write_delete|apply write_none].
Qed.

Lemma delete_user_booking_write st user_id id :
  booking_write st (delete_user_booking st user_id id).2.
Proof.
  unfold delete_user_booking. destruct (bookings st !! id);
    [|apply write_none].
  case_bool_decide; [apply write_none|apply write_delete].
Qed.

Lemma booked_insert_le st id b date slot :
  (booked (set_bookings st (<[id := b]> (bookings st))) date slot
   ≤ booked st date slot + counts b date slot)%nat.
Proof.
  rewrite booked_insert. pose proof (booked_delete_le st id date slot). lia.
Qed.

Lemma booking_write_no_overbooking st st' :
  booking_write st st' → no_overbooking st → no_overbooking st'.
Proof.
  intros Hw Hno date slot.
  assert (Haval : ∀ id b,
            bk_time b ∈ get_available_time_slots st (bk_date b) →
            (booked (set_bookings st (<[id := b]> (bookings st))) date slot
             ≤ total_setups st)%nat).
  { intros id b [_ Hlt]%available_inv.
    pose proof (booked_insert_le st id b date slot) as Hle.
    pose proof (Hno date slot). unfold counts in Hle.
    case_decide as Hc; [|lia]. destruct Hc as (<- & _ & <-). lia. }
  destruct Hw as [|new_id b Hin|id b Hb|id b d t now Hb Hin|id];
    rewrite ?total_setups_set_bookings.
  - apply Hno.
  - by apply Haval.
  - pose proof (booked_insert_le st id (update_status b "cancelled") date slot).
    rewrite counts_cancelled in *. pose proof (Hno date slot). lia.
  - by apply Haval.
  - pose proof (booked_delete_le st id date slot). pose proof (Hno date slot).
    lia.
Qed.

Lemma booking_write_times_canonical st st' :
  booking_write st st' → times_canonical st → times_canonical st'.
Proof.
  unfold times_canonical.
  intros [|new_id b Hin|id b Hb|id b d t now Hb Hin|id] Hall; simpl.
  - done.
  - apply map_Forall_insert_2; [|done]. by apply available_inv in Hin as [? _].
  - apply map_Forall_insert_2; [|done]. simpl. by apply (Hall id).
  - apply map_Forall_insert_2; [|done]. simpl.
    by apply available_inv in Hin as [? _].
  - by apply map_Forall_delete.
Qed.

End Writes.

(** ** Properties of the resolver and of the booking handlers *)

Lemma booked_le_size (st : Store) (date slot : string) :
  (booked st date slot ≤ length (map_to_list (bookings st)))%nat.
Proof.
  unfold booked. etransitivity; [apply length_filter|].
  by rewrite length_fmap.
Qed.

Lemma sample_store_no_overbooking : no_overbooking sample_store.
Proof.
  intros date slot. etransitivity; [apply booked_le_size|].
  vm_compute. lia.
Qed.

Lemma sample_store_times_canonical : times_canonical sample_store.
Proof.
  unfold times_canonical, sample_store. simpl.
  repeat (apply map_Forall_insert_2;
          [apply (bool_decide_unpack _); by vm_compute|]).
  apply map_Forall_empty.
Qed.

(** X1.  When every flag of the effective setup map is false, the resolver
    offers no slot, on any date and whatever the bookings are. *)
Theorem no_enabled_setup_no_slot (st : Store) (date : string) :
  map_Forall (λ _ flag, flag = false) (available_setups st) →
  get_available_time_slots st date = [].
Proof.
  intros Hall. rewrite get_available_time_slots_filter.
  rewrite (total_setups_no_flag st Hall).
  generalize all_slots. intros l.
  induction l as [|slot l IH]; [done|].
  rewrite filter_cons, decide_False by lia. done.
Qed.

Lemma no_enabled_setup_no_slot_witness :
  get_available_time_slots closed_store "2025-06-01" = [].
Proof.
  apply (no_enabled_setup_no_slot closed_store "2025-06-01").
  unfold closed_store, available_setups. simpl.
  repeat (apply map_Forall_insert_2; [done|]). apply map_Forall_empty.
Defined.

(** X2.  Run one after the other, the handlers that write bookings never
    overbook: if no slot of any date holds more non-cancelled bookings than
    there are enabled setups, the same is true of the store that create,
    either update route or either delete route leaves, for every request. *)
Theorem handlers_keep_no_overbooking {rt : Interpreter}
    (st : Store) :
  no_overbooking st →
  (∀ user_id body new_id now,
     no_overbooking (create_booking st user_id body new_id now).2)
  ∧ (∀ booking_id data now,
       no_overbooking (update_booking st booking_id data now).2)
  ∧ (∀ user_id booking_id data now,
       no_overbooking (update_user_booking st user_id booking_id data now).2)
  ∧ (∀ booking_id, no_overbooking (delete_booking st booking_id).2)
  ∧ (∀ user_id booking_id,
       no_overbooking (delete_user_booking st user_id booking_id).2).
Proof.
  intros Hno. split; [|split; [|split; [|split]]]; intros;
    (eapply booking_write_no_overbooking; [|exact Hno]).
  - apply create_booking_write.
  - apply update_booking_write.
  - apply update_user_booking_write.
  - apply delete_booking_write.
  - apply delete_user_booking_write.
Qed.

Lemma handlers_keep_no_overbooking_witness :
  no_overbooking
    (create_booking (rt := sample_interpreter) sample_store "u1"
       (create_data "individual" (JInt 3) "2025-06-01" "14:00" (JInt 2))
       "b4" "2025-05-31T10:00:00").2.
Proof.
  exact (proj1 (handlers_keep_no_overbooking (rt := sample_interpreter)
        sample_store
                  sample_store_no_overbooking) _ _ _ _).
Defined.

(** X3.  The handlers keep every stored booking on a canonical label: if
    the time of every booking is one of the 14 labels, the same is true
    after create, either update route or either delete route. *)
Theorem handlers_keep_times_canonical {rt : Interpreter}
    (st : Store) :
  times_canonical st →
  (∀ user_id body new_id now,
     times_canonical (create_booking st user_id body new_id now).2)
  ∧ (∀ booking_id data now,
       times_canonical (update_booking st booking_id data now).2)
  ∧ (∀ user_id booking_id data now,
       times_canonical (update_user_booking st user_id booking_id data now).2)
  ∧ (∀ booking_id, times_canonical (delete_booking st booking_id).2)
  ∧ (∀ user_id booking_id,
       times_canonical (delete_user_booking st user_id booking_id).2).
Proof.
  intros Hno. split; [|split; [|split; [|split]]]; intros;
    (eapply booking_write_times_canonical; [|exact Hno]).
  - apply create_booking_write.
  - apply update_booking_write.
  - apply update_user_booking_write.
  - apply delete_booking_write.
  - apply delete_user_booking_write.
Qed.

Lemma handlers_keep_times_canonical_witness :
  times_canonical
    (update_booking (rt := sample_interpreter)
          sample_store "b2" (reschedule_data "2025-06-02" "11:00")
       "2025-05-31T10:00:00").2.
Proof.
  exact (proj1 (proj2 (handlers_keep_times_canonical (rt := sample_interpreter)
        sample_store
                         sample_store_times_canonical)) _ _ _).
Defined.

(** X4.  A successful create under an identifier that no booking has adds
    one to the count of its own date and time and leaves every other count
    as it was; so on every date the resolver offers afterwards a
    subsequence of what it offered before. *)
Theorem create_adds_one_to_its_slot {rt : Interpreter}
    (st st' : Store) (user_id setup : string)
    (players : json) (date time : string) (duration : json)
    (new_id now : string) (r : string * Booking) :
  create_booking st user_id (create_data setup players date time duration)
    new_id now = (Success r, st') →
  bookings st !! new_id = None →
  (∀ date' slot',
     booked st' date' slot'
     = booked st date' slot'
       + (if bool_decide (date' = date ∧ slot' = time) then 1 else 0))
  ∧ (∀ date', get_available_time_slots st' date'
              `sublist_of` get_available_time_slots st date').
Proof.
  intros Hc Hfresh.
  apply create_booking_success in Hc
    as (b & u & -> & -> & [= Hd] & [= Ht] & Hin & Hs & _).
  assert (Hbooked : ∀ date' slot',
     booked (set_bookings st (<[new_id := b]> (bookings st))) date' slot'
     = booked st date' slot'
       + (if bool_decide (date' = date ∧ slot' = time) then 1 else 0)).
  { intros date' slot'. rewrite booked_insert_fresh by done. f_equal.
    unfold counts. rewrite <- Hd, <- Ht, Hs.
    case_bool_decide as Heq; case_decide as Hc; try done.
    - destruct Heq as [-> ->]. exfalso. apply Hc. done.
    - destruct Hc as (<- & _ & <-). exfalso. by apply Heq. }
  split; [done|].
  intros date'. rewrite !get_available_time_slots_filter.
  apply filter_sublist_impl. intros slot'.
  rewrite Hbooked, total_setups_set_bookings. lia.
Qed.

Lemma create_adds_one_to_its_slot_witness :
  booked (create_booking (rt := sample_interpreter) sample_store "u1"
            (create_data "individual" (JInt 3) "2025-06-01" "14:00" (JInt 2))
            "b4" "2025-05-31T10:00:00").2 "2025-06-01" "14:00"
  = booked sample_store "2025-06-01" "14:00" + 1.
Proof.
  eapply (proj1 (create_adds_one_to_its_slot (rt := sample_interpreter)
        sample_store _ "u1" "individual"
                   (JInt 3) "2025-06-01" "14:00" (JInt 2) "b4"
                   "2025-05-31T10:00:00" _ eq_refl eq_refl)
            "2025-06-01" "14:00").
Defined.

(** X5.  Cancelling a booking that was not cancelled takes one off the
    count of its own date and time and changes no other count; if its time
    is canonical and its slot was not overbooked, the resolver offers that
    slot afterwards, and on every date it offers at least what it offered
    before. *)
Theorem cancel_frees_its_slot {rt : Interpreter}
    (st : Store) (booking_id now : string)
    (b : Booking) :
  bookings st !! booking_id = Some b →
  bk_status b ≠ "cancelled" →
  (∀ date slot,
     booked (update_booking st booking_id cancel_data now).2 date slot
     + (if bool_decide (date = bk_date b ∧ slot = bk_time b) then 1 else 0)
     = booked st date slot)
  ∧ (bk_time b ∈ all_slots →
     (booked st (bk_date b) (bk_time b) ≤ total_setups st)%nat →
     bk_time b
     ∈ get_available_time_slots (update_booking st booking_id cancel_data now).2
         (bk_date b))
  ∧ (∀ date,
       get_available_time_slots st date
       `sublist_of`
       get_available_time_slots (update_booking st booking_id cancel_data now).2
         date).
Proof.
  intros Hb Hst. unfold update_booking. rewrite Hb.
  destruct (apply_update_cases st booking_id cancel_data now b Hb)
    as [[_ ->] | [(d & t & Hne & _) | (e & Hne & _)]];
    [|by destruct Hne..]. simpl.
  assert (Hbooked : ∀ date slot,
     booked (set_bookings st
               (<[booking_id := update_status b "cancelled"]> (bookings st)))
       date slot
     + (if bool_decide (date = bk_date b ∧ slot = bk_time b) then 1 else 0)
     = booked st date slot).
  { intros date slot. rewrite booked_insert, counts_cancelled.
    rewrite <- (booked_delete st booking_id b date slot) by done.
    unfold counts. case_bool_decide as Heq; case_decide as Hc; try lia.
    - destruct Heq as [-> ->]. exfalso. by apply Hc.
    - destruct Hc as (<- & _ & <-). exfalso. by apply Heq. }
  split; [done|]. split.
  - intros Hin Hle. apply available_intro; [done|].
    rewrite total_setups_set_bookings.
    specialize (Hbooked (bk_date b) (bk_time b)).
    rewrite bool_decide_eq_true_2 in Hbooked by done. lia.
  - intros date. rewrite !get_available_time_slots_filter.
    apply filter_sublist_impl. intros slot.
    rewrite total_setups_set_bookings. specialize (Hbooked date slot). lia.
Qed.

Lemma cancel_frees_its_slot_witness :
  booked (update_booking (rt := sample_interpreter)
        sample_store "b1" cancel_data "2025-05-31T10:00:00").2
    "2025-06-01" "14:00" + 1
  = booked sample_store "2025-06-01" "14:00".
Proof.
  exact (proj1 (cancel_frees_its_slot (rt := sample_interpreter)
        sample_store "b1" "2025-05-31T10:00:00"
                  (sample_booking "u1" "14:00" "confirmed") eq_refl
                  ltac:(discriminate))
           "2025-06-01" "14:00").
Defined.

(** X6.  Cancelling is idempotent: a second cancel of the same booking
    returns what the first returned and leaves the store that the first
    left, whether or not the booking exists. *)
Theorem cancel_is_idempotent {rt : Interpreter}
    (st : Store) (booking_id now now' : string) :
  update_booking (update_booking st booking_id cancel_data now).2
    booking_id cancel_data now'
  = update_booking st booking_id cancel_data now.
Proof.
  unfold update_booking at 2 3.
  destruct (bookings st !! booking_id) as [b|] eqn:Hb.
  - destruct (apply_update_cases st booking_id cancel_data now b Hb)
      as [[_ ->] | [(d & t & Hne & _) | (e & Hne & _)]];
      [|by destruct Hne..]. simpl.
    unfold update_booking. simpl. rewrite lookup_insert_eq.
    set (st1 := set_bookings st _).
    destruct (apply_update_cases st1 booking_id cancel_data now'
                (update_status b "cancelled"))
      as [[_ ->] | [(d & t & Hne & _) | (e & Hne & _)]];
      [by (unfold st1; simpl; rewrite lookup_insert_eq)| |by destruct Hne..].
    unfold st1, set_bookings. simpl. by rewrite insert_insert_eq.
  - simpl. unfold update_booking. by rewrite Hb.
Qed.

(** X7.  For a booking that exists, a reschedule on the admin route
    succeeds exactly when the resolver offers the new time on the new date:
    it then returns the booking with the new date and time, status
    rescheduled and the update stamp, every other field as it was, and
    stores it under the same id; a canonical time that is not offered fails
    with SlotUnavailable and any failure leaves the store as it was. *)
Theorem reschedule_succeeds_iff_available {rt : Interpreter}
    (st : Store) (booking_id : string)
    (b : Booking) (new_date new_time now : string) :
  bookings st !! booking_id = Some b →
  (new_time ∈ get_available_time_slots st new_date →
   update_booking st booking_id (reschedule_data new_date new_time) now
   = (Success (booking_id, update_reschedule b new_date new_time now),
      set_bookings st
        (<[booking_id := update_reschedule b new_date new_time now]>
           (bookings st))))
  ∧ (new_time ∉ get_available_time_slots st new_date →
     ∃ e, update_booking st booking_id (reschedule_data new_date new_time) now
          = (Failure e, st))
  ∧ (new_time ∈ all_slots →
     new_time ∉ get_available_time_slots st new_date →
     update_booking st booking_id (reschedule_data new_date new_time) now
     = (Failure SlotUnavailable, st)).
Proof.
  intros Hb. unfold update_booking. rewrite Hb. split; [|split].
  - intros Hin.
    destruct (canonical_hour new_time) as (hour & Hh & Hrange);
      [by apply available_inv in Hin as [? _]|].
    unfold apply_update. simpl. rewrite Hh.
    rewrite bool_decide_eq_false_2 by done.
    rewrite bool_decide_eq_false_2 by (by intros ?).
    rewrite (updated_booking_alter st booking_id b) by done.
    by rewrite (alter_as_insert _ booking_id b).
  - intros Hout.
    destruct (apply_update_cases st booking_id
                (reschedule_data new_date new_time) now b Hb)
      as [[[=] _] | [(d & t & _ & [= <-] & [= <-] & Hin & _) | (e & _ & ->)]];
      [done|eauto].
  - intros Hcan Hout.
    destruct (canonical_hour new_time Hcan) as (hour & Hh & Hrange).
    unfold apply_update. simpl. rewrite Hh.
    rewrite bool_decide_eq_false_2 by done.
    by rewrite bool_decide_eq_true_2.
Qed.

Lemma reschedule_succeeds_iff_available_witness :
  update_booking (rt := sample_interpreter)
        sample_store "b1" (reschedule_data "2025-06-02" "11:00")
    "2025-05-31T10:00:00"
  = (Success ("b1", update_reschedule (sample_booking "u1" "14:00" "confirmed")
                      "2025-06-02" "11:00" "2025-05-31T10:00:00"),
     set_bookings sample_store
       (<["b1" := update_reschedule (sample_booking "u1" "14:00" "confirmed")
                    "2025-06-02" "11:00" "2025-05-31T10:00:00"]>
          (bookings sample_store))).
Proof.
  apply (proj1 (reschedule_succeeds_iff_available (rt := sample_interpreter)
        sample_store "b1"
                  (sample_booking "u1" "14:00" "confirmed")
                  "2025-06-02" "11:00" "2025-05-31T10:00:00" eq_refl)).
  apply (bool_decide_unpack _). vm_compute. exact I.
Defined.

(** X8.  A booking counts against itself when it is rescheduled: if it is
    not cancelled, its time is canonical and the other bookings of its slot
    leave at most the place that it occupies, a reschedule to its own date
    and time fails with SlotUnavailable. *)
Theorem reschedule_onto_own_full_slot_fails {rt : Interpreter}
    (st : Store)
    (booking_id now : string) (b : Booking) :
  bookings st !! booking_id = Some b →
  bk_status b ≠ "cancelled" →
  bk_time b ∈ all_slots →
  (total_setups st
   ≤ booked (set_bookings st (delete booking_id (bookings st)))
       (bk_date b) (bk_time b) + 1)%nat →
  update_booking st booking_id (reschedule_data (bk_date b) (bk_time b)) now
  = (Failure SlotUnavailable, st).
Proof.
  intros Hb Hst Hcan Hfull.
  destruct (canonical_hour (bk_time b) Hcan) as (hour & Hh & Hrange).
  unfold update_booking. rewrite Hb. unfold apply_update. simpl. rewrite Hh.
  rewrite bool_decide_eq_false_2 by done.
  rewrite bool_decide_eq_true_2; [done|].
  intros [_ Hlt]%available_inv.
  rewrite <- (booked_delete st booking_id b) in Hlt by done.
  unfold counts in Hlt. rewrite decide_True in Hlt by done. lia.
Qed.

Lemma reschedule_onto_own_full_slot_fails_witness :
  update_booking (rt := sample_interpreter) single_setup_store "b1"
    (reschedule_data "2025-06-01" "14:00") "2025-05-31T10:00:00"
  = (Failure SlotUnavailable, single_setup_store).
Proof.
  apply (reschedule_onto_own_full_slot_fails (rt := sample_interpreter)
        single_setup_store "b1"
           "2025-05-31T10:00:00" (sample_booking "u1" "14:00" "confirmed")).
  - reflexivity.
  - discriminate.
  - apply (bool_decide_unpack _). vm_compute. exact I.
  - vm_compute. lia.
Defined.

(** X9.  A booking that create has just stored is found again: the public
    lookup with its id and the email of the user's profile returns it, and
    it is part of the user's own list and of the admin list, filtered by
    its date or not. *)
Theorem create_then_lookup {rt : Interpreter}
    (st st' : Store) (user_id : string)
    (body : CreateData) (new_id now : string) (r : string * Booking) :
  create_booking st user_id body new_id now = (Success r, st') →
  new_id ≠ "" → bk_email r.2 ≠ "" →
  check_booking st' (Some new_id) (Some (bk_email r.2)) = Success r
  ∧ r ∈ get_user_bookings st' user_id
  ∧ r ∈ get_bookings st' None
  ∧ r ∈ get_bookings st' (cd_date body).
Proof.
  intros Hc Hid Hemail.
  apply create_booking_success in Hc
    as (b & u & -> & -> & Hd & _ & _ & _ & Huid & _).
  simpl in *.
  assert (Hl : (new_id, b) ∈ map_to_list (<[new_id := b]> (bookings st))).
  { apply elem_of_map_to_list, lookup_insert_eq. }
  split; [|split; [|split]].
  - unfold check_booking. simpl.
    rewrite !bool_decide_eq_false_2 by done. simpl.
    rewrite lookup_insert_eq. by rewrite bool_decide_eq_false_2 by (by intros ?).
  - unfold get_user_bookings. simpl. by apply list_elem_of_filter.
  - done.
  - rewrite Hd. unfold get_bookings. destruct (given _); [|done].
    by apply list_elem_of_filter.
Qed.

Lemma create_then_lookup_witness :
  check_booking
    (create_booking (rt := sample_interpreter) sample_store "u1"
       (create_data "individual" (JInt 3) "2025-06-01" "14:00" (JInt 2))
       "b4" "2025-05-31T10:00:00").2
    (Some "b4") (Some "ann@example.org")
  = Success ("b4",
      {| bk_user_id := "u1"; bk_name := "Ann"; bk_email := "ann@example.org";
         bk_phone := "555"; bk_setup := "individual"; bk_players := 3;
         bk_date := "2025-06-01"; bk_time := "14:00"; bk_duration := 2;
         bk_price := PInt 720; bk_status := "confirmed";
         bk_created_at := "2025-05-31T10:00:00"; bk_updated_at := None |}).
Proof.
  refine (proj1 (create_then_lookup (rt := sample_interpreter)
        sample_store _ "u1"
                   (create_data "individual" (JInt 3) "2025-06-01" "14:00"
                      (JInt 2))
                   "b4" "2025-05-31T10:00:00" _ eq_refl _ _)).
  - discriminate.
  - discriminate.
Defined.

(** X10.  Deleting a booking that exists removes that document and no
    other, takes its contribution off the counts, and makes a later delete
    or public lookup of the id fail with NotFound; deleting an id that no
    booking has fails with NotFound and leaves the store as it was. *)
Theorem delete_booking_removes (st : Store) (booking_id : string) :
  (∀ b, bookings st !! booking_id = Some b →
     (delete_booking st booking_id).1 = Success "Booking deleted successfully"
     ∧ bookings (delete_booking st booking_id).2 !! booking_id = None
     ∧ (∀ other, other ≠ booking_id →
          bookings (delete_booking st booking_id).2 !! other
          = bookings st !! other)
     ∧ (∀ date slot,
          booked (delete_booking st booking_id).2 date slot + counts b date slot
          = booked st date slot)
     ∧ delete_booking (delete_booking st booking_id).2 booking_id
       = (Failure NotFound, (delete_booking st booking_id).2)
     ∧ (∀ email, email ≠ "" → booking_id ≠ "" →
          check_booking (delete_booking st booking_id).2 (Some booking_id)
            (Some email)
          = Failure NotFound))
  ∧ (bookings st !! booking_id = None →
     delete_booking st booking_id = (Failure NotFound, st)).
Proof.
  split.
  - intros b Hb.
    assert (Hdel : delete_booking st booking_id
                   = (Success "Booking deleted successfully",
                      set_bookings st (delete booking_id (bookings st)))).
    { unfold delete_booking. by rewrite Hb. }
    rewrite Hdel. simpl. repeat split.
    + apply lookup_delete_eq.
    + intros other Hne. by apply lookup_delete_ne.
    + intros date slot. by apply booked_delete.
    + unfold delete_booking. simpl. by rewrite lookup_delete_eq.
    + intros email He Hid. unfold check_booking. simpl.
      rewrite !bool_decide_eq_false_2 by done. simpl.
      by rewrite lookup_delete_eq.
  - intros Hb. unfold delete_booking. by rewrite Hb.
Qed.

Lemma delete_booking_removes_witness :
  delete_booking (delete_booking sample_store "b1").2 "b1"
  = (Failure NotFound, (delete_booking sample_store "b1").2)
  ∧ delete_booking sample_store "b9" = (Failure NotFound, sample_store).
Proof.
  split.
  - refine (proj1 (proj2 (proj2 (proj2 (proj2
             (proj1 (delete_booking_removes sample_store "b1")
                (sample_booking "u1" "14:00" "confirmed") eq_refl)))))).
  - exact (proj2 (delete_booking_removes sample_store "b9") eq_refl).
Defined.

(** X11.  On the user routes the owner of a booking gets exactly what the
    admin routes do, for update and for delete; any other user is refused
    with Forbidden and nothing is written.  The bookings a user owns are the
    ones that [get_user_bookings] lists for that user, each once. *)
Theorem user_routes_act_on_own_bookings {rt : Interpreter}
    (st : Store)
    (user_id booking_id : string) (b : Booking) :
  bookings st !! booking_id = Some b →
  ((booking_id, b) ∈ get_user_bookings st user_id ↔ bk_user_id b = user_id)
  ∧ NoDup (get_user_bookings st user_id).*1
  ∧ (bk_user_id b = user_id →
     (∀ data now,
        update_user_booking st user_id booking_id data now
        = update_booking st booking_id data now)
     ∧ delete_user_booking st user_id booking_id
       = delete_booking st booking_id)
  ∧ (bk_user_id b ≠ user_id →
     (∀ data now,
        update_user_booking st user_id booking_id data now
        = (Failure Forbidden, st))
     ∧ delete_user_booking st user_id booking_id = (Failure Forbidden, st)).
Proof.
  intros Hb. split; [|split; [|split]].
  - unfold get_user_bookings. rewrite list_elem_of_filter. simpl.
    rewrite elem_of_map_to_list. tauto.
  - unfold get_user_bookings.
    eapply sublist_NoDup; [apply (NoDup_fst_map_to_list (bookings st))|].
    apply fmap_sublist, sublist_filter.
  - intros Hown.
    unfold update_user_booking, update_booking, delete_user_booking,
      delete_booking.
    rewrite Hb. rewrite bool_decide_eq_false_2 by (by intros ?). done.
  - intros Hother. unfold update_user_booking, delete_user_booking.
    rewrite Hb. by rewrite bool_decide_eq_true_2.
Qed.

Lemma user_routes_act_on_own_bookings_witness :
  delete_user_booking sample_store "u1" "b1" = delete_booking sample_store "b1"
  ∧ delete_user_booking sample_store "u2" "b1" = (Failure Forbidden, sample_store).
Proof.
  split.
  - refine (proj2 (proj1 (proj2 (proj2 (user_routes_act_on_own_bookings
        (rt := sample_interpreter)
              sample_store "u1" "b1" (sample_booking "u1" "14:00" "confirmed")
              eq_refl))) eq_refl)).
  - refine (proj2 (proj2 (proj2 (proj2 (user_routes_act_on_own_bookings
        (rt := sample_interpreter)
              sample_store "u2" "b1" (sample_booking "u1" "14:00" "confirmed")
              eq_refl))) _)).
    discriminate.
Defined.

(** X12.  The admin list holds every stored booking once, with its id, when
    the date parameter is absent or empty, and with a date given it holds
    exactly the bookings of that date. *)
Theorem get_bookings_lists_the_collection (st : Store) (date : option string)
    (booking_id : string) (b : Booking) :
  NoDup (get_bookings st date).*1
  ∧ (given date = false →
     ((booking_id, b) ∈ get_bookings st date
      ↔ bookings st !! booking_id = Some b))
  ∧ (∀ d, date = Some d → d ≠ "" →
       ((booking_id, b) ∈ get_bookings st date
        ↔ bookings st !! booking_id = Some b ∧ bk_date b = d)).
Proof.
  split; [|split].
  - unfold get_bookings. destruct date as [d|]; [destruct (given _)|];
      try apply NoDup_fst_map_to_list.
    eapply sublist_NoDup; [apply (NoDup_fst_map_to_list (bookings st))|].
    apply fmap_sublist, sublist_filter.
  - intros Hg. unfold get_bookings. destruct date as [d|]; rewrite ?Hg;
      apply elem_of_map_to_list.
  - intros d -> Hd. unfold get_bookings, given.
    rewrite bool_decide_eq_false_2 by done. simpl.
    rewrite list_elem_of_filter, elem_of_map_to_list. simpl. tauto.
Qed.

Lemma get_bookings_lists_the_collection_witness :
  ("b1", sample_booking "u1" "14:00" "confirmed")
  ∈ get_bookings sample_store (Some "")
  ↔ bookings sample_store !! "b1" = Some (sample_booking "u1" "14:00" "confirmed").
Proof.
  exact (proj1 (proj2 (get_bookings_lists_the_collection sample_store (Some "")
                         "b1" (sample_booking "u1" "14:00" "confirmed")))
           eq_refl).
Defined.

(** X13.  The availability route and create agree: for a date that is
    given, the route answers with the date, the resolver's slots and the
    effective setup flags, and a create request with the five fields for
    that date is refused with SlotUnavailable exactly for the times that
    are not among those slots; without a date the route answers 400. *)
Theorem availability_agrees_with_create {rt : Interpreter}
    (st : Store) (date : string)
    (user_id setup : string) (players : json) (time : string)
    (duration : json) (new_id now : string) :
  (date ≠ "" →
   ∃ slots,
     get_availability st (Some date) = Success (date, slots, available_setups st)
     ∧ (create_booking st user_id
          (create_data setup players date time duration) new_id now
        = (Failure SlotUnavailable, st)
        ↔ time ∉ slots))
  ∧ get_availability st (Some "")
    = Failure (ValidationError "Date parameter is required")
  ∧ get_availability st None
    = Failure (ValidationError "Date parameter is required").
Proof.
  split; [|done]. intros Hd.
  exists (get_available_time_slots st date). split.
  - unfold get_availability, given. by rewrite bool_decide_eq_false_2.
  - unfold create_booking. simpl. case_bool_decide as Hin; [done|].
    split; [|done].
    destruct (py_bind _ _); intros [=].
Qed.

Lemma availability_agrees_with_create_witness :
  ∃ slots,
    get_availability sample_store (Some "2025-06-01")
    = Success ("2025-06-01", slots, available_setups sample_store)
    ∧ (create_booking (rt := sample_interpreter) sample_store "u1"
         (create_data "squad" (JInt 2) "2025-06-01" "09:00" (JInt 1))
         "b4" "2025-05-31T10:00:00"
       = (Failure SlotUnavailable, sample_store)
       ↔ "09:00" ∉ slots).
Proof.
  apply (proj1 (availability_agrees_with_create (rt := sample_interpreter)
        sample_store "2025-06-01"
                  "u1" "squad" (JInt 2) "09:00" (JInt 1) "b4"
                  "2025-05-31T10:00:00")).
  discriminate.
Defined.

(** ** The configuration documents *)

Lemma resolver_ext (st1 st2 : Store) (date : string) :
  bookings st1 = bookings st2 →
  available_setups st1 = available_setups st2 →
  get_available_time_slots st1 date = get_available_time_slots st2 date.
Proof.
  intros Hb Hs.
  unfold get_available_time_slots, bookings_where_date, total_setups.
  by rewrite Hb, Hs.
Qed.

Lemma calculate_price_ext {rt : Interpreter}
    (st1 st2 : Store) (setup_type : string)
    (duration players : Z) :
  base_prices st1 = base_prices st2 →
  calculate_price st1 setup_type duration players
  = calculate_price st2 setup_type duration players.
Proof. intros Hp. unfold calculate_price, base_price. by rewrite Hp. Qed.

Lemma count_enabled_insert (m : gmap string bool) (setup : string)
    (flag : bool) :
  m !! setup = None →
  length (filter (λ kv : string * bool, kv.2 = true) (map_to_list (<[setup := flag]> m)))
  = length (filter (λ kv : string * bool, kv.2 = true) (map_to_list m))
    + (if flag then 1 else 0).
Proof.
  intros Hfresh. rewrite map_to_list_insert by done.
  rewrite filter_cons. simpl. destruct flag.
  - rewrite decide_True by done. simpl. lia.
  - rewrite decide_False by done. lia.
Qed.

(** X14.  Reading the prices writes the default table when the pricing
    document does not exist, and this changes no price: the route returns
    the table that the calculator uses, the calculator computes afterwards
    what it computed before, the bookings are untouched, and a second read
    returns the same table and writes nothing. *)
Theorem get_pricing_seeds_without_changing_prices {rt : Interpreter}
    (st : Store) :
  (get_pricing st).1 = base_prices st
  ∧ pricing (get_pricing st).2 = Some (base_prices st)
  ∧ (∀ setup_type duration players,
       calculate_price (get_pricing st).2 setup_type duration players
       = calculate_price st setup_type duration players)
  ∧ bookings (get_pricing st).2 = bookings st
  ∧ get_pricing (get_pricing st).2 = ((get_pricing st).1, (get_pricing st).2).
Proof.
  unfold get_pricing, base_prices.
  destruct (pricing st) as [p|] eqn:Hp; simpl; rewrite ?Hp; repeat split.
  intros. apply calculate_price_ext. unfold base_prices. simpl. by rewrite Hp.
Qed.

(** X15.  Updating the prices fails with status 500 and writes nothing
    while the pricing document does not exist, so the defaults stay in
    force until the prices were read once; on an existing document an
    update with at least one rate overwrites the rates it names, whatever
    values the body gives them, and keeps the others: the calculator then
    uses the new rate for a named setup type, computes what it computed
    before for every other type, and no type that had a rate loses it. *)
Theorem update_pricing_merges {rt : Interpreter} (st : Store)
    (data : gmap string pyval) :
  (pricing st = None → update_pricing st data = (Failure UnexpectedError, st))
  ∧ (∀ p, pricing st = Some p → data ≠ ∅ →
       update_pricing st data
       = (Success (data ∪ p), set_pricing st (Some (data ∪ p)))
       ∧ (∀ setup_type (rate : Z) duration players,
            data !! setup_type = Some (PInt rate) →
            calculate_price (update_pricing st data).2 setup_type duration
              players
            = Ret (PInt (if bool_decide (setup_type = "individual")
                         then rate * players * duration
                         else rate * duration)%Z))
       ∧ (∀ setup_type (rate : pyval) duration players,
            data !! setup_type = Some rate →
            calculate_price (update_pricing st data).2 setup_type duration
              players
            = if bool_decide (setup_type = "individual")
              then per_hour ←py py_mul rate players; py_mul per_hour duration
              else py_mul rate duration)
       ∧ (∀ setup_type duration players,
            data !! setup_type = None →
            calculate_price (update_pricing st data).2 setup_type duration
              players
            = calculate_price st setup_type duration players)
       ∧ (∀ setup_type,
            is_Some (base_prices st !! setup_type) →
            is_Some (base_prices (update_pricing st data).2 !! setup_type)))
  ∧ (data ≠ ∅ →
     ∃ p', update_pricing (get_pricing st).2 data
           = (Success p', set_pricing st (Some p'))).
Proof.
  split; [|split].
  - intros Hp. unfold update_pricing. by rewrite Hp.
  - intros p Hp Hdata.
    assert (Hup : update_pricing st data
                  = (Success (data ∪ p), set_pricing st (Some (data ∪ p)))).
    { unfold update_pricing. rewrite Hp. by rewrite bool_decide_eq_false_2. }
    rewrite Hup. simpl. split; [done|]. split; [|split; [|split]].
    + intros setup_type rate duration players Hrate.
      unfold calculate_price, base_price, base_prices. simpl.
      rewrite (lookup_union_Some_l data p setup_type _ Hrate).
      by case_bool_decide.
    + intros setup_type rate duration players Hrate.
      unfold calculate_price, base_price, base_prices. simpl.
      rewrite (lookup_union_Some_l data p setup_type _ Hrate).
      by case_bool_decide.
    + intros setup_type duration players Hnone.
      unfold calculate_price, base_price, base_prices. simpl.
      by rewrite Hp, lookup_union_r.
    + intros setup_type. unfold base_prices. simpl. rewrite Hp. simpl.
      intros [rate Hrate]. destruct (data !! setup_type) as [rate'|] eqn:Hd.
      * exists rate'. by apply lookup_union_Some_l.
      * exists rate. by rewrite lookup_union_r.
  - intros Hdata. unfold get_pricing, update_pricing.
    destruct (pricing st) as [p|] eqn:Hp; simpl; rewrite ?Hp;
      rewrite bool_decide_eq_false_2 by done; eexists; split.
Qed.

Lemma update_pricing_merges_witness :
  update_pricing empty_store {[ "squad" := PInt 500 ]}
  = (Failure UnexpectedError, empty_store)
  ∧ calculate_price (rt := sample_interpreter)
      (update_pricing (get_pricing empty_store).2 {[ "squad" := PInt 500 ]}).2
      "squad" 2 4
    = Ret (PInt 1000).
Proof.
  split.
  - exact (proj1 (update_pricing_merges (rt := sample_interpreter) empty_store
                    {[ "squad" := PInt 500 ]})
             eq_refl).
  - refine (proj1 (proj2 (proj1 (proj2 (update_pricing_merges
              (rt := sample_interpreter)
              (get_pricing empty_store).2 {[ "squad" := PInt 500 ]}))
              default_prices eq_refl _)) "squad" 500%Z 2%Z 4%Z _).
    + apply insert_non_empty.
    + apply lookup_singleton_eq.
Defined.

(** X16.  Reading the setup flags writes the default flags when the
    document does not exist, and this changes no availability: the route
    returns the flags that the resolver uses, the resolver offers afterwards
    on every date what it offered before, and a second read returns the same
    flags and writes nothing. *)
Theorem get_setup_availability_seeds_without_changing_slots (st : Store) :
  (get_setup_availability st).1 = available_setups st
  ∧ (∀ date,
       get_available_time_slots (get_setup_availability st).2 date
       = get_available_time_slots st date)
  ∧ bookings (get_setup_availability st).2 = bookings st
  ∧ get_setup_availability (get_setup_availability st).2
    = ((get_setup_availability st).1, (get_setup_availability st).2).
Proof.
  unfold get_setup_availability, available_setups.
  destruct (setup_availability st) as [s|] eqn:Hs; simpl; rewrite ?Hs;
    repeat split.
  intros date. apply resolver_ext; [done|].
  unfold available_setups. simpl. by rewrite Hs.
Qed.

(** X17.  Updating the setup flags fails with status 500 and writes nothing
    while the document does not exist; on an existing document an update
    with at least one flag overwrites the flags it names, keeps the others
    and leaves the bookings alone.  Every true flag counts as a setup,
    whatever its name: a true flag under a name that the document did not
    have raises the number of enabled setups by one. *)
Theorem update_setup_availability_merges (st : Store)
    (data : gmap string bool) :
  (setup_availability st = None →
   update_setup_availability st data = (Failure UnexpectedError, st))
  ∧ (∀ s, setup_availability st = Some s → data ≠ ∅ →
       update_setup_availability st data
       = (Success (data ∪ s), set_setup_availability st (Some (data ∪ s)))
       ∧ (∀ setup flag, data !! setup = Some flag →
            available_setups (update_setup_availability st data).2 !! setup
            = Some flag)
       ∧ (∀ setup, data !! setup = None →
            available_setups (update_setup_availability st data).2 !! setup
            = s !! setup)
       ∧ bookings (update_setup_availability st data).2 = bookings st)
  ∧ (∀ s setup, setup_availability st = Some s → s !! setup = None →
       total_setups (update_setup_availability st {[ setup := true ]}).2
       = S (total_setups st)).
Proof.
  split; [|split].
  - intros Hs. unfold update_setup_availability. by rewrite Hs.
  - intros s Hs Hdata.
    assert (Hup : update_setup_availability st data
                  = (Success (data ∪ s),
                     set_setup_availability st (Some (data ∪ s)))).
    { unfold update_setup_availability. rewrite Hs.
      by rewrite bool_decide_eq_false_2. }
    rewrite Hup. simpl. split; [done|]. split; [|split; [|done]].
    + intros setup flag Hflag. unfold available_setups. simpl.
      by apply lookup_union_Some_l.
    + intros setup Hnone. unfold available_setups. simpl.
      by apply lookup_union_r.
  - intros s setup Hs Hfresh. unfold update_setup_availability. rewrite Hs.
    rewrite bool_decide_eq_false_2 by apply insert_non_empty.
    unfold total_setups, available_setups. simpl. rewrite Hs. simpl.
    rewrite <- insert_union_singleton_l.
    rewrite count_enabled_insert by done. lia.
Qed.

Lemma update_setup_availability_merges_witness :
  total_setups (update_setup_availability closed_store {[ "vr_booth" := true ]}).2
  = S (total_setups closed_store).
Proof.
  refine (proj2 (proj2 (update_setup_availability_merges closed_store ∅))
            _ "vr_booth" eq_refl _).
  by vm_compute.
Defined.

(** ** Accounts *)

Lemma singleton_of_NoDup {A} (l : list A) (x : A) :
  NoDup l → x ∈ l → (∀ y, y ∈ l → y = x) → l = [x].
Proof.
  intros Hnd Hin Hall. destruct l as [|y l]; [by apply elem_of_nil in Hin|].
  assert (y = x) as -> by (apply Hall, list_elem_of_here).
  destruct l as [|z l]; [done|]. exfalso.
  assert (z = x) as ->.
  { apply Hall, list_elem_of_further, list_elem_of_here. }
  apply NoDup_cons in Hnd as [Hnotin _]. apply Hnotin, list_elem_of_here.
Qed.

Lemma elem_of_length_pos {A} (l : list A) (x : A) :
  x ∈ l → (0 < length l)%nat.
Proof.
  destruct l; [by intros ?%elem_of_nil|]. simpl. lia.
Qed.

Lemma users_where_email_elem (st : Store) (email id : string) (u : User) :
  (id, u) ∈ users_where_email st email
  ↔ users st !! id = Some u ∧ u_email u = email.
Proof.
  unfold users_where_email. rewrite list_elem_of_filter, elem_of_map_to_list.
  simpl. tauto.
Qed.

Lemma users_where_email_singleton (st : Store) (email id : string)
    (u : User) :
  users st !! id = Some u → u_email u = email →
  (∀ id' u', users st !! id' = Some u' → u_email u' = email → id' = id) →
  users_where_email st email = [(id, u)].
Proof.
  intros Hu He Hall. apply singleton_of_NoDup.
  - apply NoDup_filter, NoDup_map_to_list.
  - by apply users_where_email_elem.
  - intros [id' u'] [Hu' He']%users_where_email_elem.
    assert (id' = id) as -> by eauto. congruence.
Qed.

Lemma users_where_email_nil (st : Store) (email : string) :
  users_where_email st email = [] ↔
  ∀ id u, users st !! id = Some u → u_email u ≠ email.
Proof.
  split.
  - intros Hnil id u Hu He.
    assert (Hin : (id, u) ∈ users_where_email st email)
      by (by apply users_where_email_elem).
    rewrite Hnil in Hin. by apply elem_of_nil in Hin.
  - intros Hall. destruct (users_where_email st email) as [|[id u] l] eqn:Hl;
      [done|]. exfalso.
    assert (Hin : (id, u) ∈ users_where_email st email).
    { rewrite Hl. apply list_elem_of_here. }
    apply users_where_email_elem in Hin as [Hu He]. by apply (Hall id u).
Qed.

Section Accounts.

Context (sha256_hex : string → string) (jwt_encode : TokenPayload → string).

Implicit Types (st : Store) (u : User) (id email : string).

(** What a successful registration did. *)
Lemma user_register_success st data new_id now utcnow r st' :
  user_register sha256_hex jwt_encode st data new_id now utcnow = (inr r, st') →
  ∃ email password name phone,
    data = {| rd_email := Some email; rd_password := Some password;
              rd_name := Some name; rd_phone := Some phone |}
    ∧ email ≠ "" ∧ password ≠ "" ∧ name ≠ "" ∧ phone ≠ ""
    ∧ users_where_email st email = []
    ∧ r = (jwt_encode {| tp_user_id := new_id; tp_email := email;
                         tp_name := name; tp_exp := utcnow + thirty_days |},
           {| au_id := new_id; au_email := email; au_name := name |})
    ∧ st' = set_users st
              (<[new_id := {| u_email := email;
                              u_password := sha256_hex password;
                              u_name := name; u_phone := phone;
                              u_created_at := now |}]> (users st)).
Proof.
  unfold user_register. destruct data as [[e|] [pw|] [n|] [ph|]]; simpl;
    rewrite ?andb_false_r; simpl; try congruence.
  destruct (decide (e = "")) as [->|He]; [simpl; congruence|].
  destruct (decide (pw = "")) as [->|Hpw];
    [simpl; rewrite ?andb_false_r; simpl; congruence|].
  destruct (decide (n = "")) as [->|Hn];
    [simpl; rewrite ?andb_false_r; simpl; congruence|].
  destruct (decide (ph = "")) as [->|Hph];
    [simpl; rewrite ?andb_false_r; simpl; congruence|].
  rewrite !(bool_decide_eq_false_2 (_ = "")) by done. simpl.
  case_bool_decide as Hdup; [congruence|].
  intros [= <- <-]. exists e, pw, n, ph. repeat split; try done.
  destruct (users_where_email st e); [done|]. simpl in Hdup. lia.
Qed.

End Accounts.

(** X18.  Registration and login round-trip: after a successful
    registration, a login with the same email and password succeeds for the
    identifier that the registration generated and returns the same user
    data, and a login with a password whose hash differs is refused with
    status 401. *)
Theorem register_then_login (sha256_hex : string → string)
    (jwt_encode : TokenPayload → string) (st st' : Store)
    (email password name phone new_id now : string) (utcnow utcnow' : Z)
    (r : string * AuthUser) :
  user_register sha256_hex jwt_encode st
    {| rd_email := Some email; rd_password := Some password;
       rd_name := Some name; rd_phone := Some phone |} new_id now utcnow
  = (inr r, st') →
  user_login sha256_hex jwt_encode st'
    {| ld_email := Some email; ld_password := Some password |} utcnow'
  = inr (jwt_encode {| tp_user_id := new_id; tp_email := email;
                       tp_name := name; tp_exp := utcnow' + thirty_days |},
         r.2)
  ∧ (∀ other, other ≠ "" → sha256_hex other ≠ sha256_hex password →
       user_login sha256_hex jwt_encode st'
         {| ld_email := Some email; ld_password := Some other |} utcnow'
       = inl InvalidCredentials).
Proof.
  intros Hreg.
  apply user_register_success in Hreg
    as (e & pw & n & ph & [= <- <- <- <-] & He & Hpw & _ & _ & Hnone & -> & ->).
  set (u := {| u_email := email; u_password := sha256_hex password;
               u_name := name; u_phone := phone; u_created_at := now |}).
  assert (Hq : users_where_email (set_users st (<[new_id := u]> (users st)))
                 email = [(new_id, u)]).
  { apply (users_where_email_singleton _ email new_id u); simpl.
    - apply lookup_insert_eq.
    - done.
    - intros id' u' Hu' He'. destruct (decide (id' = new_id)); [done|].
      rewrite lookup_insert_ne in Hu' by done.
      by destruct (proj1 (users_where_email_nil st email) Hnone id' u'). }
  unfold user_login. simpl. rewrite Hq.
  rewrite !(bool_decide_eq_false_2 (email = "")) by done. simpl. split.
  - rewrite (bool_decide_eq_false_2 (password = "")) by done. simpl.
    by rewrite bool_decide_eq_false_2 by (by intros ?).
  - intros other Ho Hhash.
    rewrite (bool_decide_eq_false_2 (other = "")) by done. simpl.
    by rewrite bool_decide_eq_true_2.
Qed.

Lemma register_then_login_witness :
  user_login String.rev tp_user_id
    (user_register String.rev tp_user_id sample_store
       {| rd_email := Some "bob@example.org"; rd_password := Some "secret";
          rd_name := Some "Bob"; rd_phone := Some "556" |}
       "u2" "2025-05-31T10:00:00" 1748685600).2
    {| ld_email := Some "bob@example.org"; ld_password := Some "secret" |}
    1748689200
  = inr ("u2", {| au_id := "u2"; au_email := "bob@example.org";
                  au_name := "Bob" |}).
Proof.
  refine (proj1 (register_then_login String.rev tp_user_id sample_store _
                   "bob@example.org" "secret" "Bob" "556" "u2"
                   "2025-05-31T10:00:00" 1748685600 1748689200 _ eq_refl)).
Defined.

(** X19.  Registration keeps emails unique: if no two users share an
    email, the same is true of the store that a registration leaves; and
    once an email is registered, every further registration with that email
    and all fields given is refused as an existing user and writes
    nothing. *)
Theorem register_keeps_emails_unique (sha256_hex : string → string)
    (jwt_encode : TokenPayload → string) (st : Store) (data : RegisterData)
    (new_id now : string) (utcnow : Z) :
  emails_unique st →
  emails_unique
    (user_register sha256_hex jwt_encode st data new_id now utcnow).2
  ∧ (∀ r st' email,
       user_register sha256_hex jwt_encode st data new_id now utcnow
       = (inr r, st') →
       rd_email data = Some email →
       ∀ password name phone id2 now2 utcnow2,
         password ≠ "" → name ≠ "" → phone ≠ "" →
         user_register sha256_hex jwt_encode st'
           {| rd_email := Some email; rd_password := Some password;
              rd_name := Some name; rd_phone := Some phone |} id2 now2 utcnow2
         = (inl UserExists, st')).
Proof.
  intros Huniq.
  destruct (user_register sha256_hex jwt_encode st data new_id now utcnow)
    as [[e|r] st'] eqn:Hreg.
  { assert (st' = st) as ->.
    { revert Hreg. unfold user_register.
      destruct (negb _); [congruence|].
      destruct (rd_email data), (rd_password data), (rd_name data),
        (rd_phone data); try congruence.
      case_bool_decide; congruence. }
    split; [done|]. intros r st' email [=]. }
  apply user_register_success in Hreg
    as (e & pw & n & ph & -> & He & _ & _ & _ & Hnone & -> & ->).
  set (u := {| u_email := e; u_password := sha256_hex pw; u_name := n;
               u_phone := ph; u_created_at := now |}).
  simpl. split.
  - intros id1 id2 u1 u2. simpl.
    destruct (decide (id1 = new_id)) as [->|H1],
             (decide (id2 = new_id)) as [->|H2]; [done|..];
      rewrite ?lookup_insert_eq, ?lookup_insert_ne by done.
    + intros [= <-] Hu2 Heq. simpl in Heq.
      by destruct (proj1 (users_where_email_nil st e) Hnone id2 u2).
    + intros Hu1 [= <-] Heq. simpl in Heq.
      by destruct (proj1 (users_where_email_nil st e) Hnone id1 u1).
    + apply Huniq.
  - intros r st' email [= <- <-] [= <-] password name phone id2 now2 utcnow2
      Hpw Hn Hph.
    unfold user_register. simpl.
    rewrite !bool_decide_eq_false_2 by done. simpl.
    rewrite bool_decide_eq_true_2; [done|].
    apply (elem_of_length_pos _ (new_id, u)).
    apply users_where_email_elem. simpl. by rewrite lookup_insert_eq.
Qed.

Lemma sample_store_emails_unique : emails_unique sample_store.
Proof.
  intros id1 id2 u1 u2. unfold sample_store. simpl.
  intros [<- _]%lookup_singleton_Some [<- _]%lookup_singleton_Some _. done.
Qed.

Lemma register_keeps_emails_unique_witness :
  emails_unique
    (user_register String.rev tp_user_id sample_store
       {| rd_email := Some "bob@example.org"; rd_password := Some "secret";
          rd_name := Some "Bob"; rd_phone := Some "556" |}
       "u2" "2025-05-31T10:00:00" 1748685600).2.
Proof.
  exact (proj1 (register_keeps_emails_unique String.rev tp_user_id sample_store
                  _ "u2" "2025-05-31T10:00:00" 1748685600
                  sample_store_emails_unique)).
Defined.

(** X20.  A login with both fields given fails with status 404 when no user
    has the email; when emails are unique and a user has the email, it
    succeeds for that user exactly when the hash of the password is the
    stored one, and is refused with status 401 otherwise.  An absent or
    empty email or password is answered with status 400. *)
Theorem user_login_outcomes (sha256_hex : string → string)
    (jwt_encode : TokenPayload → string) (st : Store)
    (email password : string) (utcnow : Z) :
  email ≠ "" → password ≠ "" →
  ((∀ id u, users st !! id = Some u → u_email u ≠ email) →
   user_login sha256_hex jwt_encode st
     {| ld_email := Some email; ld_password := Some password |} utcnow
   = inl UserNotFound)
  ∧ (∀ id u,
       emails_unique st → users st !! id = Some u → u_email u = email →
       user_login sha256_hex jwt_encode st
         {| ld_email := Some email; ld_password := Some password |} utcnow
       = if bool_decide (sha256_hex password = u_password u) then
           inr (jwt_encode {| tp_user_id := id; tp_email := email;
                              tp_name := u_name u;
                              tp_exp := utcnow + thirty_days |},
                {| au_id := id; au_email := email; au_name := u_name u |})
         else inl InvalidCredentials)
  ∧ (∀ data, given (ld_email data) && given (ld_password data) = false →
       user_login sha256_hex jwt_encode st data utcnow
       = inl (FieldsRequired "Email and password required")).
Proof.
  intros He Hpw. split; [|split].
  - intros Hnone. apply users_where_email_nil in Hnone.
    unfold user_login. simpl. rewrite !bool_decide_eq_false_2 by done. simpl.
    by rewrite Hnone.
  - intros id u Huniq Hu Hemail.
    unfold user_login. simpl. rewrite !bool_decide_eq_false_2 by done. simpl.
    rewrite (users_where_email_singleton st email id u); [|done|done|].
    + case_bool_decide as Hne; case_bool_decide as Heq; done.
    + intros id' u' Hu' He'. apply (Huniq id' id u' u); congruence.
  - intros [e pw] Hg. unfold user_login. simpl in *.
    destruct e as [e|], pw as [pw|]; try done.
    destruct (given (Some e)), (given (Some pw)); done.
Qed.

Lemma user_login_outcomes_witness :
  user_login String.rev tp_user_id sample_store
    {| ld_email := Some "bob@example.org"; ld_password := Some "secret" |}
    1748689200
  = inl UserNotFound
  ∧ user_login String.rev tp_user_id sample_store
      {| ld_email := Some "ann@example.org"; ld_password := Some "secret" |}
      1748689200
    = inl InvalidCredentials.
Proof.
  split.
  - refine (proj1 (user_login_outcomes String.rev tp_user_id sample_store
                     "bob@example.org" "secret" 1748689200 _ _) _);
      try discriminate.
    intros id u Hu. unfold sample_store in Hu. simpl in Hu.
    apply lookup_singleton_Some in Hu as [<- <-]. discriminate.
  - refine (proj1 (proj2 (user_login_outcomes String.rev tp_user_id sample_store
                     "ann@example.org" "secret" 1748689200 _ _)) "u1" _
              sample_store_emails_unique eq_refl eq_refl);
      discriminate.
Defined.

(** ** The access gates *)





Lemma str_cut_unfold (sep s : string) :
  str_cut sep s
  = if String.prefix sep s then Some ("", drop_chars (String.length sep) s)
    else match s with
         | EmptyString => None
         | String c s' =>
             match str_cut sep s' with
             | Some (before, after) => Some (String c before, after)
             | None => None
             end
         end.
Proof. by destruct s. Qed.

Lemma str_cut_prefix (sep s : string) :
  String.prefix sep s = true →
  str_cut sep s = Some ("", drop_chars (String.length sep) s).
Proof. intros Hp. by rewrite str_cut_unfold, Hp. Qed.



Lemma split_item1_prefix (sep s : string) :
  sep ≠ "" → String.prefix sep s = true → is_Some (split_item1 sep s).
Proof.
  intros Hsep Hp. unfold split_item1. rewrite bool_decide_eq_false_2 by done.
  rewrite (str_cut_prefix _ _ Hp). eauto.
Qed.



(** X23.  The user gate runs the wrapped handler only for a header that
    starts with the bearer prefix and whose token decodes to claims with a
    user id that is not empty, and hands that user id to the handler; every
    refusal has status 401 or 403 and leaves the store as it was.  Hence a
    booking created through the gate belongs to the user of the token. *)
Theorem user_required_gate {rt : Interpreter}
    {R : Type} (jwt_decode : string → decoded)
    (f : string → Store → R * Store) (auth_header : option string)
    (st : Store) :
  (∀ status msg st',
     user_required jwt_decode f auth_header st = (Denied status msg, st') →
     st' = st ∧ (status = 401 ∨ status = 403)%nat)
  ∧ (∀ r st',
       user_required jwt_decode f auth_header st = (Allowed r, st') →
       ∃ header token payload user_id,
         auth_header = Some header
         ∧ String.prefix "Bearer " header = true
         ∧ split_item1 "Bearer " header = Some token
         ∧ jwt_decode token = Decoded payload
         ∧ cl_user_id payload = Some user_id ∧ user_id ≠ ""
         ∧ f user_id st = (r, st'))
  ∧ (∀ body new_id now id b st',
       user_required jwt_decode
         (λ user_id st, create_booking st user_id body new_id now)
         auth_header st
       = (Allowed (Success (id, b)), st') →
       ∃ header token payload,
         auth_header = Some header
         ∧ split_item1 "Bearer " header = Some token
         ∧ jwt_decode token = Decoded payload
         ∧ cl_user_id payload = Some (bk_user_id b)).
Proof.
  assert (Hallowed : ∀ (R' : Type) (g : string → Store → R' * Store) r st',
    user_required jwt_decode g auth_header st = (Allowed r, st') →
    ∃ header token payload user_id,
      auth_header = Some header
      ∧ String.prefix "Bearer " header = true
      ∧ split_item1 "Bearer " header = Some token
      ∧ jwt_decode token = Decoded payload
      ∧ cl_user_id payload = Some user_id ∧ user_id ≠ ""
      ∧ g user_id st = (r, st')).
  { intros R' g r st'. unfold user_required.
    destruct auth_header as [header|]; [|intros [=]].
    destruct (negb _ || negb _) eqn:Hg; [intros [=]|].
    apply orb_false_elim in Hg as [_ Hp]. apply negb_false_iff in Hp.
    destruct (split_item1 "Bearer " header) as [token|] eqn:Hitem;
      [|intros [=]].
    destruct (jwt_decode token) as [| |payload] eqn:Hdec;
      [intros [=] | intros [=] |].
    destruct (cl_user_id payload) as [user_id|] eqn:Huid; [|intros [=]].
    case_bool_decide as Hne; [intros [=]|].
    destruct (g user_id st) as [r0 st0] eqn:Hf. intros [= <- <-].
    by exists header, token, payload, user_id. }
  split; [|split].
  - intros status msg st'. unfold user_required.
    destruct auth_header as [header|]; [|intros ?; simplify_eq; auto].
    destruct (negb _ || negb _) eqn:Hg; [intros ?; simplify_eq; auto|].
    apply orb_false_elim in Hg as [_ Hp]. apply negb_false_iff in Hp.
    destruct (split_item1_prefix "Bearer " header) as [token ->]; [done..|].
    destruct (jwt_decode token) as [| |payload];
      [intros ?; simplify_eq; auto | intros ?; simplify_eq; auto |].
    destruct (cl_user_id payload) as [user_id|];
      [|intros ?; simplify_eq; auto].
    case_bool_decide; [intros ?; simplify_eq; auto|].
    destruct (f user_id st). intros [=].
  - apply Hallowed.
  - intros body new_id now id b st' Hrun.
    apply Hallowed in Hrun
      as (header & token & payload & user_id & -> & _ & Ht & Hd & Hu & _ & Hc).
    apply create_booking_success in Hc
      as (b' & u & [= _ <-] & _ & _ & _ & _ & _ & <- & _).
    by exists header, token, payload.
Qed.

Lemma user_required_gate_witness :
  ∃ header token payload,
    Some "Bearer u1-token" = Some header
    ∧ split_item1 "Bearer " header = Some token
    ∧ sample_decode token = Decoded payload
    ∧ cl_user_id payload = Some "u1".
Proof.
  refine (proj2 (proj2 (user_required_gate (rt := sample_interpreter)
        sample_decode (λ _ st, (tt, st))
                          (Some "Bearer u1-token") sample_store))
            (create_data "individual" (JInt 3) "2025-06-01" "14:00" (JInt 2))
            "b4" "2025-05-31T10:00:00" "b4"
            {| bk_user_id := "u1"; bk_name := "Ann";
               bk_email := "ann@example.org"; bk_phone := "555";
               bk_setup := "individual"; bk_players := 3;
               bk_date := "2025-06-01"; bk_time := "14:00"; bk_duration := 2;
               bk_price := PInt 720; bk_status := "confirmed";
               bk_created_at := "2025-05-31T10:00:00";
               bk_updated_at := None |} _ eq_refl).
Defined.
